(** * FSearch configuration store (src/config.c)

    A shallow embedding of [load_config], [load_default_config] and
    [save_config] together with the part of the GLib key-file API they
    call, and the properties of the configuration record that follow.

    Conventions.
    - [uint32_t] and [gint] values are integers in [Z]; every conversion
      between the two is written out ([to_uint32], [to_gint]).
    - C strings are [string]s (sequences of bytes).
    - A function that writes through its [FsearchConfig *] argument takes
      the record and returns the record as it is after the call.
    - Console output ([printf], [fprintf (stderr, ...)]) does not influence
      any value computed by the module; of it only the choice made by
      [config_load_handle_error] is kept. *)

From Stdlib Require Import ZArith Ascii String List Lia Bool.
From stdpp Require Import base option list strings gmap.

Local Open Scope string_scope.
Local Open Scope Z_scope.

(** ** Machine integers *)

Module CInt.

Definition UINT32_MOD : Z := 4294967296.
Definition INT_MIN : Z := -2147483648.
Definition INT_MAX : Z := 2147483647.
Definition LONG_MIN : Z := -9223372036854775808.
Definition LONG_MAX : Z := 9223372036854775807.

(** Conversion to [uint32_t]: reduction modulo 2^32. *)
Definition to_uint32 (z : Z) : Z := z mod UINT32_MOD.

(** Conversion to [gint] (32-bit two's complement). *)
Definition to_gint (z : Z) : Z :=
  let m := z mod UINT32_MOD in
  if m <=? INT_MAX then m else m - UINT32_MOD.

Definition is_uint32 (z : Z) : Prop := 0 <= z < UINT32_MOD.
Definition is_gint (z : Z) : Prop := INT_MIN <= z <= INT_MAX.

End CInt.
Import CInt.

(** ** The C library: characters, [printf ("%d")], [strtol] *)

Module LibC.

Definition byte_of (c : ascii) : Z := Z.of_N (N_of_ascii c).

(** [isspace] in the C locale. *)
Definition isspace (c : ascii) : bool :=
  let b := byte_of c in (b =? 32) || ((9 <=? b) && (b <=? 13)).

Definition isdigit (c : ascii) : bool :=
  let b := byte_of c in (48 <=? b) && (b <=? 57).

Definition digit_char (d : Z) : ascii := ascii_of_N (Z.to_N (48 + d)).
Definition digit_val (c : ascii) : Z := byte_of c - 48.

(** Decimal digits of a non-negative number, most significant first,
    pushed in front of [acc]; [fuel] bounds the number of digits. *)
Fixpoint utoa (fuel : nat) (n : Z) (acc : string) : string :=
  match fuel with
  | O => acc
  | S fuel' =>
      let acc' := String (digit_char (n mod 10)) acc in
      if n / 10 =? 0 then acc' else utoa fuel' (n / 10) acc'
  end.

Definition MINUS : ascii := ascii_of_N 45.
Definition PLUS : ascii := ascii_of_N 43.

(** [printf ("%d", value)] for an [int]: at most ten digits. *)
Definition printf_d (value : Z) : string :=
  if value <? 0 then String MINUS (utoa 10 (- value) "")
  else utoa 10 value "".

(** [snprintf (buf, size, ...)]: at most [size - 1] bytes are stored. *)
Definition snprintf (size : nat) (formatted : string) : string :=
  substring 0 (size - 1) formatted.

Fixpoint skip_space (s : string) : string :=
  match s with
  | String c rest => if isspace c then skip_space rest else s
  | EmptyString => s
  end.

(** The digit loop of [strtol]: value read so far, whether any digit was
    consumed, and the unread suffix. *)
Fixpoint read_digits (acc : Z) (any : bool) (s : string) : Z * bool * string :=
  match s with
  | String c rest =>
      if isdigit c then read_digits (10 * acc + digit_val c) true rest
      else (acc, any, s)
  | EmptyString => (acc, any, s)
  end.

(** [strtol (nptr, &endptr, 10)] on an LP64 target: the [long] returned,
    the string [endptr] points at, and whether [errno] is [ERANGE]. *)
Definition strtol (nptr : string) : Z * string * bool :=
  let s := skip_space nptr in
  let '(neg, body) :=
    match s with
    | String c rest =>
        if Ascii.eqb c MINUS then (true, rest)
        else if Ascii.eqb c PLUS then (false, rest)
        else (false, s)
    | EmptyString => (false, s)
    end in
  let '(magnitude, any, rest) := read_digits 0 false body in
  if any then
    let v := if neg then - magnitude else magnitude in
    if v <? LONG_MIN then (LONG_MIN, rest, true)
    else if LONG_MAX <? v then (LONG_MAX, rest, true)
    else (v, rest, false)
  else (0, nptr, false).

End LibC.
Import LibC.

(** ** GLib: the key-file API used by the module

    GLib is an external library: what config.c calls is written down here
    after the GLib reference manual and gkeyfile.c.  A [GKeyFile] holds,
    for every group, the raw (still escaped) text of every key.  A getter
    returns its result together with the [GError] it reports ([None] when
    no error is set, the [NULL] of the C code). *)

Module GLib.

Inductive GKeyFileError : Set :=
| G_KEY_FILE_ERROR_UNKNOWN_ENCODING
| G_KEY_FILE_ERROR_PARSE
| G_KEY_FILE_ERROR_NOT_FOUND
| G_KEY_FILE_ERROR_KEY_NOT_FOUND
| G_KEY_FILE_ERROR_GROUP_NOT_FOUND
| G_KEY_FILE_ERROR_INVALID_VALUE.

Abbreviation GKeyFile := (gmap string (gmap string string)).

Definition g_key_file_new : GKeyFile := ∅.

Definition g_key_file_get_value (key_file : GKeyFile) (group_name key : string)
  : option string * option GKeyFileError :=
  match key_file !! group_name with
  | None => (None, Some G_KEY_FILE_ERROR_GROUP_NOT_FOUND)
  | Some group =>
      match group !! key with
      | None => (None, Some G_KEY_FILE_ERROR_KEY_NOT_FOUND)
      | Some value => (Some value, None)
      end
  end.

(** The group is created when it does not exist yet. *)
Definition g_key_file_set_value (key_file : GKeyFile) (group_name key value : string)
  : GKeyFile :=
  <[group_name := <[key := value]> (default ∅ (key_file !! group_name))]> key_file.

(** [g_ascii_isspace]: space, tab, line feed, form feed, carriage return. *)
Definition g_ascii_isspace (c : ascii) : bool :=
  let b := byte_of c in
  (b =? 32) || (b =? 9) || (b =? 10) || (b =? 12) || (b =? 13).

(** *** Booleans *)

(** The value with trailing white space removed. *)
Fixpoint chomp (value : string) : string :=
  match value with
  | EmptyString => EmptyString
  | String c rest =>
      match chomp rest with
      | EmptyString => if g_ascii_isspace c then EmptyString else String c EmptyString
      | rest' => String c rest'
      end
  end.

Definition g_key_file_parse_value_as_boolean (value : string)
  : bool * option GKeyFileError :=
  let v := chomp value in
  if String.eqb v "true" || String.eqb v "1" then (true, None)
  else if String.eqb v "false" || String.eqb v "0" then (false, None)
  else (false, Some G_KEY_FILE_ERROR_INVALID_VALUE).

Definition g_key_file_get_boolean (key_file : GKeyFile) (group_name key : string)
  : bool * option GKeyFileError :=
  match g_key_file_get_value key_file group_name key with
  | (Some value, _) => g_key_file_parse_value_as_boolean value
  | (None, error) => (false, error)
  end.

Definition g_key_file_set_boolean (key_file : GKeyFile) (group_name key : string)
  (value : bool) : GKeyFile :=
  g_key_file_set_value key_file group_name key (if value then "true" else "false").

(** *** Integers *)

Definition g_key_file_parse_value_as_integer (value : string)
  : Z * option GKeyFileError :=
  let '(long_value, eof_int, erange) := strtol value in
  let stops_badly :=
    match eof_int with
    | EmptyString => false
    | String c _ => negb (g_ascii_isspace c)
    end in
  if String.eqb value "" || stops_badly
  then (0, Some G_KEY_FILE_ERROR_INVALID_VALUE)
  else
    let int_value := to_gint long_value in
    if negb (int_value =? long_value) || erange
    then (0, Some G_KEY_FILE_ERROR_INVALID_VALUE)
    else (int_value, None).

Definition g_key_file_get_integer (key_file : GKeyFile) (group_name key : string)
  : Z * option GKeyFileError :=
  match g_key_file_get_value key_file group_name key with
  | (Some value, _) => g_key_file_parse_value_as_integer value
  | (None, error) => (0, error)
  end.

(** [value] is a [gint]. *)
Definition g_key_file_set_integer (key_file : GKeyFile) (group_name key : string)
  (value : Z) : GKeyFile :=
  g_key_file_set_value key_file group_name key (printf_d value).

(** *** Strings *)

Definition SPACE : ascii := ascii_of_N 32.
Definition TAB : ascii := ascii_of_N 9.
Definition LF : ascii := ascii_of_N 10.
Definition CR : ascii := ascii_of_N 13.
Definition BACKSLASH : ascii := ascii_of_N 92.
Definition LOWER_S : ascii := ascii_of_N 115.
Definition LOWER_T : ascii := ascii_of_N 116.
Definition LOWER_N : ascii := ascii_of_N 110.
Definition LOWER_R : ascii := ascii_of_N 114.

(** [g_key_file_parse_string_as_value] without list separator: leading
    blanks, line breaks and backslashes are escaped. *)
Fixpoint parse_string_as_value (parsing_leading_space : bool) (s : string) : string :=
  match s with
  | EmptyString => EmptyString
  | String c rest =>
      if Ascii.eqb c SPACE then
        if parsing_leading_space
        then String BACKSLASH (String LOWER_S (parse_string_as_value parsing_leading_space rest))
        else String c (parse_string_as_value parsing_leading_space rest)
      else if Ascii.eqb c TAB then
        if parsing_leading_space
        then String BACKSLASH (String LOWER_T (parse_string_as_value parsing_leading_space rest))
        else String c (parse_string_as_value parsing_leading_space rest)
      else if Ascii.eqb c LF then
        String BACKSLASH (String LOWER_N (parse_string_as_value parsing_leading_space rest))
      else if Ascii.eqb c CR then
        String BACKSLASH (String LOWER_R (parse_string_as_value parsing_leading_space rest))
      else if Ascii.eqb c BACKSLASH then
        String BACKSLASH (String BACKSLASH (parse_string_as_value false rest))
      else String c (parse_string_as_value false rest)
  end.

Definition g_key_file_parse_string_as_value (s : string) : string :=
  parse_string_as_value true s.

(** [g_key_file_parse_value_as_string]: the unescaped text and the error
    set for a dangling or unknown escape (the text is returned all the
    same). *)
Fixpoint g_key_file_parse_value_as_string (value : string)
  : string * option GKeyFileError :=
  match value with
  | EmptyString => (EmptyString, None)
  | String c rest =>
      if Ascii.eqb c BACKSLASH then
        match rest with
        | EmptyString => (EmptyString, Some G_KEY_FILE_ERROR_INVALID_VALUE)
        | String e rest' =>
            let '(tail, error) := g_key_file_parse_value_as_string rest' in
            if Ascii.eqb e LOWER_S then (String SPACE tail, error)
            else if Ascii.eqb e LOWER_N then (String LF tail, error)
            else if Ascii.eqb e LOWER_T then (String TAB tail, error)
            else if Ascii.eqb e LOWER_R then (String CR tail, error)
            else if Ascii.eqb e BACKSLASH then (String BACKSLASH tail, error)
            else (String BACKSLASH (String e tail),
                  Some G_KEY_FILE_ERROR_INVALID_VALUE)
        end
      else
        let '(tail, error) := g_key_file_parse_value_as_string rest in
        (String c tail, error)
  end.

Definition is_continuation (c : ascii) : bool :=
  let b := byte_of c in (128 <=? b) && (b <=? 191).

Definition in_range (lo hi : Z) (c : ascii) : bool :=
  let b := byte_of c in (lo <=? b) && (b <=? hi).

(** [g_utf8_validate (str, -1, NULL)]: well-formed UTF-8 (no overlong
    forms, no surrogates, nothing above U+10FFFF). *)
Fixpoint g_utf8_validate (str : string) : bool :=
  match str with
  | EmptyString => true
  | String c rest =>
      let b := byte_of c in
      if b <? 128 then g_utf8_validate rest
      else if (194 <=? b) && (b <=? 223) then
        match rest with
        | String c1 r => is_continuation c1 && g_utf8_validate r
        | _ => false
        end
      else if (224 <=? b) && (b <=? 239) then
        match rest with
        | String c1 (String c2 r) =>
            (if b =? 224 then in_range 160 191 c1
             else if b =? 237 then in_range 128 159 c1
             else is_continuation c1)
            && is_continuation c2 && g_utf8_validate r
        | _ => false
        end
      else if (240 <=? b) && (b <=? 244) then
        match rest with
        | String c1 (String c2 (String c3 r)) =>
            (if b =? 240 then in_range 144 191 c1
             else if b =? 244 then in_range 128 143 c1
             else is_continuation c1)
            && is_continuation c2 && is_continuation c3 && g_utf8_validate r
        | _ => false
        end
      else false
  end.

(** A value that is not UTF-8 is refused ("Key file contains key ... with
    value ... which is not UTF-8") and [NULL] is returned; after a bad
    escape the error is set and the text is returned nevertheless. *)
Definition g_key_file_get_string (key_file : GKeyFile) (group_name key : string)
  : option string * option GKeyFileError :=
  match g_key_file_get_value key_file group_name key with
  | (Some value, _) =>
      if g_utf8_validate value then
        let '(string_value, error) := g_key_file_parse_value_as_string value in
        (Some string_value, error)
      else (None, Some G_KEY_FILE_ERROR_UNKNOWN_ENCODING)
  | (None, error) => (None, error)
  end.

Definition g_key_file_set_string (key_file : GKeyFile) (group_name key s : string)
  : GKeyFile :=
  g_key_file_set_value key_file group_name key (g_key_file_parse_string_as_value s).

Definition g_list_append (l : list string) (data : string) : list string :=
  l ++ [data].

(** *** The file system at the configuration path

    What is stored at <user-config-dir>/fsearch/fsearch.conf is
    represented by what [g_key_file_load_from_file] makes of it. *)

Inductive DiskFile : Type :=
| FileAbsent
| FileUnreadable
| FileMalformed
| FileKeyData (content : GKeyFile).

Record FileSystem : Type := mkFileSystem {
  config_dir_exists : bool;
  may_create_dir : bool;
  may_write_file : bool;
  config_file : DiskFile
}.

(** Returns 0 on success, also when the directory is already there. *)
Definition g_mkdir_with_parents (fs : FileSystem) : Z * FileSystem :=
  if config_dir_exists fs then (0, fs)
  else if may_create_dir fs
  then (0, {| config_dir_exists := true; may_create_dir := may_create_dir fs;
              may_write_file := may_write_file fs; config_file := config_file fs |})
  else (-1, fs).

Definition g_key_file_load_from_file (key_file : GKeyFile) (fs : FileSystem)
  : bool * GKeyFile :=
  match config_file fs with
  | FileKeyData content => (true, content)
  | _ => (false, key_file)
  end.

(** The parser of "key=value" lines skips the white space in front of the
    value (it advances [value_start] while [g_ascii_isspace] holds). *)
Fixpoint chug_value (value : string) : string :=
  match value with
  | String c rest => if g_ascii_isspace c then chug_value rest else value
  | EmptyString => EmptyString
  end.

(** What [g_key_file_load_from_file] makes of the text that
    [g_key_file_to_data] writes for [key_file] ("[group]" lines followed
    by the "key=value" lines of the group): the same groups and keys, and
    every value without the white space it began with.  Nothing else is
    lost as long as no raw value holds a line break, which is the case for
    the values the typed setters store. *)
Definition g_key_file_parse_written (key_file : GKeyFile) : GKeyFile :=
  (fun group : gmap string string => chug_value <$> group) <$> key_file.

(** The file is replaced as a whole or not at all; it holds the text of
    [key_file], which a later load sees as [g_key_file_parse_written]. *)
Definition g_key_file_save_to_file (key_file : GKeyFile) (fs : FileSystem)
  : bool * FileSystem :=
  if config_dir_exists fs && may_write_file fs
  then (true, {| config_dir_exists := true; may_create_dir := may_create_dir fs;
                 may_write_file := may_write_file fs;
                 config_file := FileKeyData (g_key_file_parse_written key_file) |})
  else (false, fs).

End GLib.
Import GLib.

(** ** The configuration record (struct _FsearchConfig) *)

Record FsearchConfig : Type := mkFsearchConfig {
  enable_list_tooltips : bool;
  enable_dark_theme : bool;
  show_menubar : bool;
  show_statusbar : bool;
  show_filter : bool;
  show_search_button : bool;
  match_case : bool;
  enable_regex : bool;
  search_in_path : bool;
  limit_results : bool;
  num_results : Z;
  locations : list string
}.

(** [config->field = v] *)
Definition set_enable_list_tooltips (v : bool) (config : FsearchConfig) : FsearchConfig :=
  {| enable_list_tooltips := v;
     enable_dark_theme := enable_dark_theme config;
     show_menubar := show_menubar config;
     show_statusbar := show_statusbar config;
     show_filter := show_filter config;
     show_search_button := show_search_button config;
     match_case := match_case config; enable_regex := enable_regex config;
     search_in_path := search_in_path config;
     limit_results := limit_results config;
     num_results := num_results config; locations := locations config |}.

Definition set_enable_dark_theme (v : bool) (config : FsearchConfig) : FsearchConfig :=
  {| enable_list_tooltips := enable_list_tooltips config;
     enable_dark_theme := v; show_menubar := show_menubar config;
     show_statusbar := show_statusbar config;
     show_filter := show_filter config;
     show_search_button := show_search_button config;
     match_case := match_case config; enable_regex := enable_regex config;
     search_in_path := search_in_path config;
     limit_results := limit_results config;
     num_results := num_results config; locations := locations config |}.

Definition set_show_menubar (v : bool) (config : FsearchConfig) : FsearchConfig :=
  {| enable_list_tooltips := enable_list_tooltips config;
     enable_dark_theme := enable_dark_theme config; show_menubar := v;
     show_statusbar := show_statusbar config;
     show_filter := show_filter config;
     show_search_button := show_search_button config;
     match_case := match_case config; enable_regex := enable_regex config;
     search_in_path := search_in_path config;
     limit_results := limit_results config;
     num_results := num_results config; locations := locations config |}.

Definition set_show_statusbar (v : bool) (config : FsearchConfig) : FsearchConfig :=
  {| enable_list_tooltips := enable_list_tooltips config;
     enable_dark_theme := enable_dark_theme config;
     show_menubar := show_menubar config; show_statusbar := v;
     show_filter := show_filter config;
     show_search_button := show_search_button config;
     match_case := match_case config; enable_regex := enable_regex config;
     search_in_path := search_in_path config;
     limit_results := limit_results config;
     num_results := num_results config; locations := locations config |}.

Definition set_show_filter (v : bool) (config : FsearchConfig) : FsearchConfig :=
  {| enable_list_tooltips := enable_list_tooltips config;
     enable_dark_theme := enable_dark_theme config;
     show_menubar := show_menubar config;
     show_statusbar := show_statusbar config; show_filter := v;
     show_search_button := show_search_button config;
     match_case := match_case config; enable_regex := enable_regex config;
     search_in_path := search_in_path config;
     limit_results := limit_results config;
     num_results := num_results config; locations := locations config |}.

Definition set_show_search_button (v : bool) (config : FsearchConfig) : FsearchConfig :=
  {| enable_list_tooltips := enable_list_tooltips config;
     enable_dark_theme := enable_dark_theme config;
     show_menubar := show_menubar config;
     show_statusbar := show_statusbar config;
     show_filter := show_filter config; show_search_button := v;
     match_case := match_case config; enable_regex := enable_regex config;
     search_in_path := search_in_path config;
     limit_results := limit_results config;
     num_results := num_results config; locations := locations config |}.

Definition set_match_case (v : bool) (config : FsearchConfig) : FsearchConfig :=
  {| enable_list_tooltips := enable_list_tooltips config;
     enable_dark_theme := enable_dark_theme config;
     show_menubar := show_menubar config;
     show_statusbar := show_statusbar config;
     show_filter := show_filter config;
     show_search_button := show_search_button config; match_case := v;
     enable_regex := enable_regex config;
     search_in_path := search_in_path config;
     limit_results := limit_results config;
     num_results := num_results config; locations := locations config |}.

Definition set_enable_regex (v : bool) (config : FsearchConfig) : FsearchConfig :=
  {| enable_list_tooltips := enable_list_tooltips config;
     enable_dark_theme := enable_dark_theme config;
     show_menubar := show_menubar config;
     show_statusbar := show_statusbar config;
     show_filter := show_filter config;
     show_search_button := show_search_button config;
     match_case := match_case config; enable_regex := v;
     search_in_path := search_in_path config;
     limit_results := limit_results config;
     num_results := num_results config; locations := locations config |}.

Definition set_search_in_path (v : bool) (config : FsearchConfig) : FsearchConfig :=
  {| enable_list_tooltips := enable_list_tooltips config;
     enable_dark_theme := enable_dark_theme config;
     show_menubar := show_menubar config;
     show_statusbar := show_statusbar config;
     show_filter := show_filter config;
     show_search_button := show_search_button config;
     match_case := match_case config; enable_regex := enable_regex config;
     search_in_path := v; limit_results := limit_results config;
     num_results := num_results config; locations := locations config |}.

Definition set_limit_results (v : bool) (config : FsearchConfig) : FsearchConfig :=
  {| enable_list_tooltips := enable_list_tooltips config;
     enable_dark_theme := enable_dark_theme config;
     show_menubar := show_menubar config;
     show_statusbar := show_statusbar config;
     show_filter := show_filter config;
     show_search_button := show_search_button config;
     match_case := match_case config; enable_regex := enable_regex config;
     search_in_path := search_in_path config; limit_results := v;
     num_results := num_results config; locations := locations config |}.

Definition set_num_results (v : Z) (config : FsearchConfig) : FsearchConfig :=
  {| enable_list_tooltips := enable_list_tooltips config;
     enable_dark_theme := enable_dark_theme config;
     show_menubar := show_menubar config;
     show_statusbar := show_statusbar config;
     show_filter := show_filter config;
     show_search_button := show_search_button config;
     match_case := match_case config; enable_regex := enable_regex config;
     search_in_path := search_in_path config;
     limit_results := limit_results config; num_results := v;
     locations := locations config |}.

Definition set_locations (v : list string) (config : FsearchConfig) : FsearchConfig :=
  {| enable_list_tooltips := enable_list_tooltips config;
     enable_dark_theme := enable_dark_theme config;
     show_menubar := show_menubar config;
     show_statusbar := show_statusbar config;
     show_filter := show_filter config;
     show_search_button := show_search_button config;
     match_case := match_case config; enable_regex := enable_regex config;
     search_in_path := search_in_path config;
     limit_results := limit_results config;
     num_results := num_results config; locations := v |}.

(** ** config.c *)

(** [num_results] is a [uint32_t]. *)
Definition config_wf (config : FsearchConfig) : Prop :=
  is_uint32 (num_results config).

Definition make_config_dir (fs : FileSystem) : bool * FileSystem :=
  let '(status, fs') := g_mkdir_with_parents fs in
  (status =? 0, fs').

(** What [config_load_handle_error] writes to [stderr]. *)
Inductive Diagnostic : Set :=
| InvalidValue
| UnknownError.

(** A missing key or group is a new configuration and is not reported. *)
Definition config_load_handle_error (error : option GKeyFileError) : option Diagnostic :=
  match error with
  | None => None
  | Some G_KEY_FILE_ERROR_INVALID_VALUE => Some InvalidValue
  | Some G_KEY_FILE_ERROR_KEY_NOT_FOUND => None
  | Some G_KEY_FILE_ERROR_GROUP_NOT_FOUND => None
  | Some _ => Some UnknownError
  end.

(** [default_value] and the result are [uint32_t]; the [gint] returned by
    GLib is converted on assignment. *)
Definition config_load_integer (key_file : GKeyFile) (group_name key : string)
  (default_value : Z) : Z :=
  let '(value, error) := g_key_file_get_integer key_file group_name key in
  let result := to_uint32 value in
  match error with
  | Some _ => default_value
  | None => result
  end.

Definition config_load_boolean (key_file : GKeyFile) (group_name key : string)
  (default_value : bool) : bool :=
  let '(result, error) := g_key_file_get_boolean key_file group_name key in
  match error with
  | Some _ => default_value
  | None => result
  end.

(** A [char *] result: [None] is [NULL]. *)
Definition config_load_string (key_file : GKeyFile) (group_name key : string)
  (default_value : option string) : option string :=
  let '(result, error) := g_key_file_get_string key_file group_name key in
  match error with
  | Some _ => default_value
  | None => result
  end.

(** [snprintf (key, sizeof (key), "location_%d", pos)] with [key] of 100
    bytes and [pos] a [uint32_t] printed as an [int]. *)
Definition location_key (pos : Z) : string :=
  snprintf 100 ("location_" +:+ printf_d (to_gint pos)).

(** The [while (true)] loop of [load_config]; [fuel] bounds the number of
    iterations, and [None] means the bound was reached. *)
Fixpoint load_locations (fuel : nat) (key_file : GKeyFile) (pos : Z)
  (config : FsearchConfig) : option FsearchConfig :=
  match fuel with
  | O => None
  | S fuel' =>
      let key := location_key pos in
      let pos := to_uint32 (pos + 1) in
      match config_load_string key_file "Database" key None with
      | Some value =>
          load_locations fuel' key_file pos
            (set_locations (g_list_append (locations config) value) config)
      | None => Some config
      end
  end.

Definition load_config (fuel : nat) (config : FsearchConfig) (fs : FileSystem)
  : option (bool * FsearchConfig) :=
  let key_file := g_key_file_new in
  match g_key_file_load_from_file key_file fs with
  | (true, key_file) =>
      (* Interface *)
      let config := set_enable_list_tooltips
        (config_load_boolean key_file "Interface" "enable_list_tooltips" true) config in
      let config := set_enable_dark_theme
        (config_load_boolean key_file "Interface" "enable_dark_theme" false) config in
      let config := set_show_menubar
        (config_load_boolean key_file "Interface" "show_menubar" true) config in
      let config := set_show_statusbar
        (config_load_boolean key_file "Interface" "show_statusbar" true) config in
      let config := set_show_filter
        (config_load_boolean key_file "Interface" "show_filter" true) config in
      let config := set_show_search_button
        (config_load_boolean key_file "Interface" "show_search_button" true) config in
      (* Search *)
      let config := set_match_case
        (config_load_boolean key_file "Search" "match_case" false) config in
      let config := set_enable_regex
        (config_load_boolean key_file "Search" "enable_regex" false) config in
      let config := set_search_in_path
        (config_load_boolean key_file "Search" "search_in_path" false) config in
      let config := set_limit_results
        (config_load_boolean key_file "Search" "limit_results" false) config in
      let config := set_num_results
        (config_load_integer key_file "Search" "num_results" 10000) config in
      (* Locations *)
      match load_locations fuel key_file 1 config with
      | Some config => Some (true, config)
      | None => None
      end
  | (false, _) => Some (false, config)
  end.

Definition load_default_config (config : FsearchConfig) : bool * FsearchConfig :=
  (* Search *)
  let config := set_match_case false config in
  let config := set_enable_regex false config in
  let config := set_search_in_path false config in
  let config := set_limit_results true config in
  let config := set_num_results 10000 config in
  (* Interface *)
  let config := set_enable_dark_theme false config in
  let config := set_enable_list_tooltips true config in
  let config := set_show_menubar true config in
  let config := set_show_statusbar true config in
  let config := set_show_filter true config in
  let config := set_show_search_button true config in
  (* Locations *)
  let config := set_locations [] config in
  (true, config).

(** The [for] loop over [config->locations] in [save_config]. *)
Fixpoint save_locations (key_file : GKeyFile) (l : list string) (pos : Z) : GKeyFile :=
  match l with
  | [] => key_file
  | data :: next =>
      let location := location_key pos in
      save_locations (g_key_file_set_string key_file "Database" location data)
        next (to_uint32 (pos + 1))
  end.

Definition save_config (config : FsearchConfig) (fs : FileSystem)
  : bool * FsearchConfig * FileSystem :=
  let key_file := g_key_file_new in
  (* Interface *)
  let key_file := g_key_file_set_boolean key_file "Interface" "enable_list_tooltips"
                    (enable_list_tooltips config) in
  let key_file := g_key_file_set_boolean key_file "Interface" "enable_dark_theme"
                    (enable_dark_theme config) in
  let key_file := g_key_file_set_boolean key_file "Interface" "show_menubar"
                    (show_menubar config) in
  let key_file := g_key_file_set_boolean key_file "Interface" "show_statusbar"
                    (show_statusbar config) in
  let key_file := g_key_file_set_boolean key_file "Interface" "show_filter"
                    (show_filter config) in
  let key_file := g_key_file_set_boolean key_file "Interface" "show_search_button"
                    (show_search_button config) in
  (* Search *)
  let key_file := g_key_file_set_boolean key_file "Search" "search_in_path"
                    (search_in_path config) in
  let key_file := g_key_file_set_boolean key_file "Search" "enable_regex"
                    (enable_regex config) in
  let key_file := g_key_file_set_boolean key_file "Search" "match_case"
                    (match_case config) in
  let key_file := g_key_file_set_boolean key_file "Search" "limit_results"
                    (limit_results config) in
  let key_file := g_key_file_set_integer key_file "Search" "num_results"
                    (to_gint (num_results config)) in
  let key_file :=
    match locations config with
    | [] => key_file
    | _ => save_locations key_file (locations config) 1
    end in
  let '(saved, fs') := g_key_file_save_to_file key_file fs in
  if saved then (true, config, fs') else (false, config, fs').

(** ** Specification-side definitions

    The value a key has in a file, spelled out case by case as the
    specification words it: a missing group, a missing key and a value of
    the wrong type each give the default. *)

(** The raw text stored for [key] in [group_name], if any. *)
Definition raw_value (key_file : GKeyFile) (group_name key : string) : option string :=
  match key_file !! group_name with
  | None => None
  | Some group => group !! key
  end.

Definition bool_field (key_file : GKeyFile) (group_name key : string)
  (default_value : bool) : bool :=
  match key_file !! group_name with
  | None => default_value
  | Some group =>
      match group !! key with
      | None => default_value
      | Some raw =>
          match g_key_file_parse_value_as_boolean raw with
          | (b, None) => b
          | (_, Some _) => default_value
          end
      end
  end.

Definition uint_field (key_file : GKeyFile) (group_name key : string)
  (default_value : Z) : Z :=
  match key_file !! group_name with
  | None => default_value
  | Some group =>
      match group !! key with
      | None => default_value
      | Some raw =>
          match g_key_file_parse_value_as_integer raw with
          | (v, None) => v mod 2 ^ 32
          | (_, Some _) => default_value
          end
      end
  end.

(** The text a string key yields, when it is there and can be read. *)
Definition string_field (key_file : GKeyFile) (group_name key : string) : option string :=
  match raw_value key_file group_name key with
  | None => None
  | Some raw =>
      if g_utf8_validate raw then
        match g_key_file_parse_value_as_string raw with
        | (s, None) => Some s
        | (_, Some _) => None
        end
      else None
  end.

(** The key the specification gives the [i]-th location (counted from 1). *)
Definition numbered_key (i : Z) : string := "location_" +:+ printf_d i.

(** The scalar part of the key file [save_config] builds. *)
Definition scalar_key_file (config : FsearchConfig) : GKeyFile :=
  let key_file := g_key_file_new in
  let key_file := g_key_file_set_boolean key_file "Interface" "enable_list_tooltips"
                    (enable_list_tooltips config) in
  let key_file := g_key_file_set_boolean key_file "Interface" "enable_dark_theme"
                    (enable_dark_theme config) in
  let key_file := g_key_file_set_boolean key_file "Interface" "show_menubar"
                    (show_menubar config) in
  let key_file := g_key_file_set_boolean key_file "Interface" "show_statusbar"
                    (show_statusbar config) in
  let key_file := g_key_file_set_boolean key_file "Interface" "show_filter"
                    (show_filter config) in
  let key_file := g_key_file_set_boolean key_file "Interface" "show_search_button"
                    (show_search_button config) in
  let key_file := g_key_file_set_boolean key_file "Search" "search_in_path"
                    (search_in_path config) in
  let key_file := g_key_file_set_boolean key_file "Search" "enable_regex"
                    (enable_regex config) in
  let key_file := g_key_file_set_boolean key_file "Search" "match_case"
                    (match_case config) in
  let key_file := g_key_file_set_boolean key_file "Search" "limit_results"
                    (limit_results config) in
  g_key_file_set_integer key_file "Search" "num_results" (to_gint (num_results config)).

(** The key file [save_config] hands to [g_key_file_save_to_file]. *)
Definition key_file_of (config : FsearchConfig) : GKeyFile :=
  match locations config with
  | [] => scalar_key_file config
  | _ => save_locations (scalar_key_file config) (locations config) 1
  end.

(** The record the specification describes for a successful load of
    [key_file]: every scalar is the value of its key or its default, and
    [l] is the sequence of locations. *)
Definition loaded_record (key_file : GKeyFile) (l : list string) : FsearchConfig :=
  {| enable_list_tooltips := bool_field key_file "Interface" "enable_list_tooltips" true;
     enable_dark_theme := bool_field key_file "Interface" "enable_dark_theme" false;
     show_menubar := bool_field key_file "Interface" "show_menubar" true;
     show_statusbar := bool_field key_file "Interface" "show_statusbar" true;
     show_filter := bool_field key_file "Interface" "show_filter" true;
     show_search_button := bool_field key_file "Interface" "show_search_button" true;
     match_case := bool_field key_file "Search" "match_case" false;
     enable_regex := bool_field key_file "Search" "enable_regex" false;
     search_in_path := bool_field key_file "Search" "search_in_path" false;
     limit_results := bool_field key_file "Search" "limit_results" false;
     num_results := uint_field key_file "Search" "num_results" 10000;
     locations := l |}.

(** The [n]-th key the loop of [load_config] asks for (counted from 0)
    cannot be read: there the loop ends at the latest. *)
Definition locations_end (key_file : GKeyFile) (n : nat) : Prop :=
  string_field key_file "Database" (location_key (to_uint32 (1 + Z.of_nat n))) = None.

(** The number of keys in the [Database] group. *)
Definition database_size (key_file : GKeyFile) : nat :=
  size (default (∅ : gmap string string) (key_file !! "Database")).

(** ** Sample data *)

(** A record as [calloc] leaves it. *)
Definition zeroed_config : FsearchConfig :=
  {| enable_list_tooltips := false; enable_dark_theme := false; show_menubar := false;
     show_statusbar := false; show_filter := false; show_search_button := false;
     match_case := false; enable_regex := false; search_in_path := false;
     limit_results := false; num_results := 0; locations := [] |}.

Definition sample_config : FsearchConfig :=
  {| enable_list_tooltips := false; enable_dark_theme := true; show_menubar := true;
     show_statusbar := false; show_filter := true; show_search_button := false;
     match_case := true; enable_regex := false; search_in_path := true;
     limit_results := true; num_results := 4294967295;
     locations := ["/home/user"; " /mnt/data disk"; "/srv\share"] |}.

(** A location whose single byte 0xFF is not UTF-8. *)
Definition latin1_config : FsearchConfig :=
  set_locations [String (ascii_of_N 255) EmptyString] sample_config.

(** No configuration directory yet; it can be created and written to. *)
Definition first_run : FileSystem :=
  {| config_dir_exists := false; may_create_dir := true; may_write_file := true;
     config_file := FileAbsent |}.

Definition read_only : FileSystem :=
  {| config_dir_exists := true; may_create_dir := false; may_write_file := false;
     config_file := FileAbsent |}.

Definition on_disk (file : DiskFile) : FileSystem :=
  {| config_dir_exists := true; may_create_dir := true; may_write_file := true;
     config_file := file |}.

(** [[Search] num_results = 500] and nothing else. *)
Definition file_num_results_only : GKeyFile :=
  {[ "Search" := {[ "num_results" := "500" ]} ]}.

(** [[Search] match_case = notabool]. *)
Definition file_match_case_notabool : GKeyFile :=
  {[ "Search" := {[ "match_case" := "notabool" ]} ]}.

(** [[Database] location_1 = /a, location_3 = /c]. *)
Definition file_location_gap : GKeyFile :=
  {[ "Database" := <["location_1" := "/a"]> {[ "location_3" := "/c" ]} ]}.

(** [[Search] num_results = -1]. *)
Definition file_num_results_minus_one : GKeyFile :=
  {[ "Search" := {[ "num_results" := "-1" ]} ]}.

(** ** config.c: where the configuration lives *)

Definition config_file_name : string := "fsearch.conf".
Definition config_folder_name : string := "fsearch".

(** [PATH_MAX] of <linux/limits.h>. *)
Definition PATH_MAX : nat := 4096.

(** [snprintf (path, len, ...)] seen from the buffer: with [len = 0]
    nothing is stored and [path] keeps what it held. *)
Definition snprintf_into (path : string) (len : nat) (formatted : string) : string :=
  match len with
  | O => path
  | S _ => snprintf len formatted
  end.

(** [xdg_conf_dir] is what [g_get_user_config_dir ()] returns; the result
    is the content of [path] after the call. *)
Definition build_config_dir (xdg_conf_dir : string) (path : string) (len : nat) : string :=
  snprintf_into path len (xdg_conf_dir +:+ "/" +:+ config_folder_name).

Definition build_config_path (xdg_conf_dir : string) (path : string) (len : nat) : string :=
  snprintf_into path len
    (xdg_conf_dir +:+ "/" +:+ config_folder_name +:+ "/" +:+ config_file_name).

(** ** Further specification-side definitions *)

(** The locations up to the first one that is not UTF-8. *)
Fixpoint utf8_prefix (l : list string) : list string :=
  match l with
  | [] => []
  | s :: rest => if g_utf8_validate s then s :: utf8_prefix rest else []
  end.

(** Form feed: white space for [g_ascii_isspace], and not escaped by
    [g_key_file_set_string]. *)
Definition FORM_FEED : ascii := ascii_of_N 12.

Definition starts_with_form_feed (s : string) : bool :=
  match s with
  | String c _ => Ascii.eqb c FORM_FEED
  | EmptyString => false
  end.

(** [s] without the form feeds, blanks and tabs it begins with. *)
Fixpoint strip_blanks (s : string) : string :=
  match s with
  | String c rest =>
      if Ascii.eqb c FORM_FEED || Ascii.eqb c SPACE || Ascii.eqb c TAB
      then strip_blanks rest else s
  | EmptyString => EmptyString
  end.

(** What a location that was saved comes back as: itself, unless it begins
    with a form feed; then the white space it begins with is gone. *)
Definition read_back (s : string) : string :=
  if starts_with_form_feed s then strip_blanks s else s.

(** The values of [key_file] are as the parser leaves them: none begins
    with white space. *)
Definition as_parsed (key_file : GKeyFile) : Prop :=
  forall group_name key raw,
    raw_value key_file group_name key = Some raw -> chug_value raw = raw.

(** A record with one location that begins with a form feed. *)
Definition form_feed_config : FsearchConfig :=
  set_locations [String FORM_FEED "/a"] sample_config.

(** Group and key of the eleven scalar settings. *)
Definition scalar_keys : list (string * string) :=
  [ ("Interface", "enable_list_tooltips"); ("Interface", "enable_dark_theme");
    ("Interface", "show_menubar"); ("Interface", "show_statusbar");
    ("Interface", "show_filter"); ("Interface", "show_search_button");
    ("Search", "search_in_path"); ("Search", "enable_regex");
    ("Search", "match_case"); ("Search", "limit_results");
    ("Search", "num_results") ].

(** * Properties *)

(** ** The model on small inputs *)

Section Samples.

Example printf_d_zero : printf_d 0 = "0".
Proof. reflexivity. Qed.

Example printf_d_default : printf_d 10000 = "10000".
Proof. reflexivity. Qed.

Example printf_d_int_min : printf_d INT_MIN = "-2147483648".
Proof. reflexivity. Qed.

Example strtol_stops_at_text : strtol " 500 x" = (500, " x", false).
Proof. reflexivity. Qed.

Example strtol_without_digits : strtol " x" = (0, " x", false).
Proof. reflexivity. Qed.

Example integer_out_of_range :
  g_key_file_parse_value_as_integer "2147483648"
  = (0, Some G_KEY_FILE_ERROR_INVALID_VALUE).
Proof. reflexivity. Qed.

Example integer_with_trailing_text :
  g_key_file_parse_value_as_integer "12a" = (0, Some G_KEY_FILE_ERROR_INVALID_VALUE).
Proof. reflexivity. Qed.

Example boolean_with_trailing_blank :
  g_key_file_parse_value_as_boolean "true " = (true, None).
Proof. reflexivity. Qed.

Example boolean_of_other_text :
  g_key_file_parse_value_as_boolean "notabool"
  = (false, Some G_KEY_FILE_ERROR_INVALID_VALUE).
Proof. reflexivity. Qed.

Example escape_leading_blank :
  g_key_file_parse_string_as_value " /mnt/data disk" = "\s/mnt/data disk".
Proof. reflexivity. Qed.

Example location_key_first : location_key 1 = "location_1".
Proof. reflexivity. Qed.

(** Past 2^31 - 1 the counter is printed as a negative [int]. *)
Example location_key_past_int_max : location_key 2147483648 = "location_-2147483648".
Proof. reflexivity. Qed.

Example load_sample_after_save :
  load_config 4 zeroed_config (snd (save_config sample_config (on_disk FileAbsent)))
  = Some (true, sample_config).
Proof. vm_compute. reflexivity. Qed.

End Samples.

(** ** Machine integers *)

Section CIntFacts.

Lemma to_gint_range z : is_gint (to_gint z).
Proof.
  unfold is_gint, to_gint, INT_MIN, INT_MAX, UINT32_MOD.
  pose proof (Z.mod_pos_bound z 4294967296 eq_refl) as Hm.
  destruct (Z.leb_spec (z mod 4294967296) 2147483647); lia.
Qed.

Lemma to_gint_small z : is_gint z -> to_gint z = z.
Proof.
  unfold is_gint, to_gint, INT_MIN, INT_MAX, UINT32_MOD. intros Hz.
  destruct (Z_lt_le_dec z 0) as [Hneg | Hpos].
  - replace (z mod 4294967296) with (z + 4294967296).
    + destruct (Z.leb_spec (z + 4294967296) 2147483647); lia.
    + apply Z.mod_unique with (q := -1); lia.
  - rewrite Z.mod_small by lia.
    destruct (Z.leb_spec z 2147483647); lia.
Qed.

Lemma to_uint32_small z : is_uint32 z -> to_uint32 z = z.
Proof. unfold is_uint32, to_uint32. intros Hz. apply Z.mod_small. exact Hz. Qed.

Lemma to_uint32_range z : is_uint32 (to_uint32 z).
Proof. unfold is_uint32, to_uint32, UINT32_MOD. apply Z.mod_pos_bound. lia. Qed.

(** Storing a [uint32_t] in a [gint] and back loses nothing. *)
Lemma to_uint32_to_gint z : is_uint32 z -> to_uint32 (to_gint z) = z.
Proof.
  unfold is_uint32, to_uint32, to_gint, INT_MAX, UINT32_MOD. intros Hz.
  rewrite (Z.mod_small z) by lia.
  destruct (Z.leb_spec z 2147483647).
  - apply Z.mod_small. lia.
  - symmetry. apply Z.mod_unique with (q := -1); lia.
Qed.

Lemma to_gint_inj p q :
  is_uint32 p -> is_uint32 q -> to_gint p = to_gint q -> p = q.
Proof.
  intros Hp Hq Heq.
  rewrite <- (to_uint32_to_gint p Hp), <- (to_uint32_to_gint q Hq).
  now rewrite Heq.
Qed.

Lemma to_uint32_negative v :
  INT_MIN <= v < 0 -> to_uint32 v = v + UINT32_MOD.
Proof.
  unfold to_uint32, INT_MIN, UINT32_MOD. intros Hv.
  symmetry. apply Z.mod_unique with (q := -1); lia.
Qed.

Lemma to_uint32_succ_add pos n :
  to_uint32 (to_uint32 (pos + 1) + Z.of_nat n) = to_uint32 (pos + Z.of_nat (S n)).
Proof.
  unfold to_uint32. rewrite Zplus_mod_idemp_l. f_equal. lia.
Qed.

End CIntFacts.

(** ** Decimal text: [strtol] reads back what [printf ("%d")] prints *)

Section DecimalFacts.

Lemma byte_of_digit_char d : 0 <= d < 10 -> byte_of (digit_char d) = 48 + d.
Proof.
  intros Hd. unfold byte_of, digit_char.
  rewrite N_ascii_embedding by lia. lia.
Qed.

Lemma isdigit_digit_char d : 0 <= d < 10 -> isdigit (digit_char d) = true.
Proof.
  intros Hd. unfold isdigit. rewrite byte_of_digit_char by exact Hd.
  apply andb_true_intro. split; apply Z.leb_le; lia.
Qed.

Lemma digit_val_digit_char d : 0 <= d < 10 -> digit_val (digit_char d) = d.
Proof.
  intros Hd. unfold digit_val. rewrite byte_of_digit_char by exact Hd. lia.
Qed.

Lemma isspace_digit_char d : 0 <= d < 10 -> isspace (digit_char d) = false.
Proof.
  intros Hd. unfold isspace. rewrite byte_of_digit_char by exact Hd.
  apply orb_false_intro.
  - apply Z.eqb_neq. lia.
  - apply andb_false_intro2. apply Z.leb_gt. lia.
Qed.

Lemma digit_char_not_byte d (c : ascii) :
  0 <= d < 10 -> byte_of c < 48 -> Ascii.eqb (digit_char d) c = false.
Proof.
  intros Hd Hc. destruct (Ascii.eqb_spec (digit_char d) c) as [Heq | Hne].
  - rewrite <- Heq, byte_of_digit_char in Hc by exact Hd. lia.
  - reflexivity.
Qed.

Lemma read_digits_utoa fuel :
  forall n acc any,
    0 <= n < 10 ^ Z.of_nat fuel -> (0 < fuel)%nat ->
    read_digits 0 any (utoa fuel n acc) = read_digits n true acc.
Proof.
  induction fuel as [| fuel IH]; intros n acc any Hn Hfuel; [lia |].
  assert (Hd : 0 <= n mod 10 < 10) by (apply Z.mod_pos_bound; lia).
  assert (Hsplit : n = 10 * (n / 10) + n mod 10) by (apply Z.div_mod; lia).
  cbn [utoa]. destruct (Z.eqb_spec (n / 10) 0) as [Hq | Hq].
  - cbn [read_digits]. rewrite isdigit_digit_char, digit_val_digit_char by exact Hd.
    f_equal. lia.
  - assert (Hpow : 10 ^ Z.of_nat (S fuel) = 10 * 10 ^ Z.of_nat fuel)
      by (rewrite Nat2Z.inj_succ, Z.pow_succ_r; lia).
    assert (Hq' : 0 <= n / 10 < 10 ^ Z.of_nat fuel).
    { split; [apply Z.div_pos; lia |].
      apply Z.div_lt_upper_bound; lia. }
    destruct fuel as [| fuel'].
    + change (10 ^ Z.of_nat 0) with 1 in Hq'. lia.
    + rewrite IH by (try exact Hq'; lia).
      cbn [read_digits]. rewrite isdigit_digit_char, digit_val_digit_char by exact Hd.
      f_equal. lia.
Qed.

Lemma utoa_head fuel :
  forall n acc, (0 < fuel)%nat -> 0 <= n ->
    exists d rest, 0 <= d < 10 /\ utoa fuel n acc = String (digit_char d) rest.
Proof.
  induction fuel as [| fuel IH]; intros n acc Hfuel Hn; [lia |].
  assert (Hd : 0 <= n mod 10 < 10) by (apply Z.mod_pos_bound; lia).
  cbn [utoa]. destruct (n / 10 =? 0).
  - eauto.
  - destruct fuel as [| fuel'].
    + cbn [utoa]. eauto.
    + apply IH; [lia | apply Z.div_pos; lia].
Qed.

Lemma utoa_length fuel :
  forall n acc, (String.length (utoa fuel n acc) <= fuel + String.length acc)%nat.
Proof.
  induction fuel as [| fuel IH]; intros n acc; cbn [utoa]; [lia |].
  destruct (n / 10 =? 0).
  - cbn [String.length]. lia.
  - etransitivity; [apply IH |]. cbn [String.length]. lia.
Qed.

Lemma printf_d_length z : (String.length (printf_d z) <= 11)%nat.
Proof.
  unfold printf_d. destruct (z <? 0); cbn [String.length].
  - pose proof (utoa_length 10 (- z) "") as H. cbn [String.length] in H. lia.
  - pose proof (utoa_length 10 z "") as H. cbn [String.length] in H. lia.
Qed.

Lemma skip_space_digit d rest :
  0 <= d < 10 -> skip_space (String (digit_char d) rest) = String (digit_char d) rest.
Proof. intros Hd. cbn [skip_space]. now rewrite isspace_digit_char. Qed.

Lemma strtol_printf_d z : is_gint z -> strtol (printf_d z) = (z, "", false).
Proof.
  unfold is_gint, INT_MIN, INT_MAX. intros Hz.
  unfold strtol, printf_d. destruct (Z.ltb_spec z 0) as [Hneg | Hpos].
  - change (skip_space (String MINUS (utoa 10 (- z) "")))
      with (String MINUS (utoa 10 (- z) "")).
    cbv iota beta. rewrite Ascii.eqb_refl. cbv iota beta.
    rewrite read_digits_utoa by (change (10 ^ Z.of_nat 10) with 10000000000; lia).
    cbn [read_digits]. cbv iota beta. unfold LONG_MIN, LONG_MAX.
    destruct (Z.ltb_spec (- - z) (-9223372036854775808)); [lia |].
    destruct (Z.ltb_spec 9223372036854775807 (- - z)); [lia |].
    f_equal. f_equal. lia.
  - destruct (utoa_head 10 z "") as (d & rest & Hd & Hhead); [lia | lia |].
    pose proof (read_digits_utoa 10 z "" false) as Hread.
    rewrite Hhead in Hread |- *. rewrite skip_space_digit by exact Hd.
    cbv iota beta.
    rewrite (digit_char_not_byte d MINUS), (digit_char_not_byte d PLUS)
      by (try exact Hd; vm_compute; reflexivity).
    cbv iota beta.
    rewrite Hread by (change (10 ^ Z.of_nat 10) with 10000000000; lia).
    cbn [read_digits]. cbv iota beta. unfold LONG_MIN, LONG_MAX.
    destruct (Z.ltb_spec z (-9223372036854775808)); [lia |].
    destruct (Z.ltb_spec 9223372036854775807 z); [lia |].
    reflexivity.
Qed.

Lemma printf_d_inj a b : is_gint a -> is_gint b -> printf_d a = printf_d b -> a = b.
Proof.
  intros Ha Hb Heq.
  pose proof (strtol_printf_d a Ha) as H1.
  pose proof (strtol_printf_d b Hb) as H2.
  rewrite Heq in H1. congruence.
Qed.

Lemma printf_d_not_empty z : String.eqb (printf_d z) "" = false.
Proof.
  unfold printf_d. destruct (Z.ltb_spec z 0) as [Hneg | Hpos]; [reflexivity |].
  destruct (utoa_head 10 z "") as (d & rest & _ & ->); [lia | lia |].
  reflexivity.
Qed.

End DecimalFacts.

(** ** Key files as maps *)

Section KeyFileFacts.

Implicit Types (key_file : GKeyFile) (group_name key value : string).

Lemma raw_value_set_value key_file group_name key value g k :
  raw_value (g_key_file_set_value key_file group_name key value) g k =
  if String.eqb group_name g && String.eqb key k then Some value
  else raw_value key_file g k.
Proof.
  unfold raw_value, g_key_file_set_value.
  destruct (String.eqb_spec group_name g) as [<- | Hg].
  - rewrite lookup_insert_eq. destruct (String.eqb_spec key k) as [<- | Hk].
    + now rewrite lookup_insert_eq.
    + rewrite lookup_insert_ne by exact Hk. cbn [andb].
      destruct (key_file !! group_name); [reflexivity | apply lookup_empty].
  - rewrite lookup_insert_ne by exact Hg. reflexivity.
Qed.

Lemma get_value_found key_file group_name key value :
  raw_value key_file group_name key = Some value ->
  g_key_file_get_value key_file group_name key = (Some value, None).
Proof.
  unfold g_key_file_get_value, raw_value.
  destruct (key_file !! group_name) as [group |]; [| discriminate].
  now intros ->.
Qed.

(** The loaders of config.c compute the fields of the specification. *)
Lemma config_load_boolean_field key_file group_name key default_value :
  config_load_boolean key_file group_name key default_value =
  bool_field key_file group_name key default_value.
Proof.
  unfold config_load_boolean, bool_field, g_key_file_get_boolean, g_key_file_get_value.
  destruct (key_file !! group_name) as [group |]; [| reflexivity].
  destruct (group !! key) as [raw |]; [| reflexivity].
  destruct (g_key_file_parse_value_as_boolean raw) as [b [e |]]; reflexivity.
Qed.

Lemma config_load_integer_field key_file group_name key default_value :
  config_load_integer key_file group_name key default_value =
  uint_field key_file group_name key default_value.
Proof.
  unfold config_load_integer, uint_field, g_key_file_get_integer, g_key_file_get_value.
  destruct (key_file !! group_name) as [group |]; [| reflexivity].
  destruct (group !! key) as [raw |]; [| reflexivity].
  destruct (g_key_file_parse_value_as_integer raw) as [v [e |]]; reflexivity.
Qed.

Lemma config_load_string_field key_file group_name key :
  config_load_string key_file group_name key None =
  string_field key_file group_name key.
Proof.
  unfold config_load_string, string_field, g_key_file_get_string,
    g_key_file_get_value, raw_value.
  destruct (key_file !! group_name) as [group |]; [| reflexivity].
  destruct (group !! key) as [raw |]; [| reflexivity].
  destruct (g_utf8_validate raw); [| reflexivity].
  destruct (g_key_file_parse_value_as_string raw) as [s [e |]]; reflexivity.
Qed.

(** A missing Boolean is silent, one of the wrong type is reported. *)
Lemma boolean_diagnostic key_file group_name key :
  config_load_handle_error (snd (g_key_file_get_boolean key_file group_name key)) =
  match raw_value key_file group_name key with
  | None => None
  | Some raw =>
      match snd (g_key_file_parse_value_as_boolean raw) with
      | Some _ => Some InvalidValue
      | None => None
      end
  end.
Proof.
  unfold g_key_file_get_boolean, g_key_file_get_value, raw_value.
  destruct (key_file !! group_name) as [group |]; [| reflexivity].
  destruct (group !! key) as [raw |]; [| reflexivity].
  unfold g_key_file_parse_value_as_boolean.
  destruct (_ || _); [reflexivity |]. destruct (_ || _); reflexivity.
Qed.

Lemma bool_field_raw key_file group_name key default_value :
  bool_field key_file group_name key default_value =
  match raw_value key_file group_name key with
  | Some raw =>
      match g_key_file_parse_value_as_boolean raw with
      | (b, None) => b
      | (_, Some _) => default_value
      end
  | None => default_value
  end.
Proof.
  unfold bool_field, raw_value.
  destruct (key_file !! group_name) as [group |]; reflexivity.
Qed.

Lemma uint_field_raw key_file group_name key default_value :
  uint_field key_file group_name key default_value =
  match raw_value key_file group_name key with
  | Some raw =>
      match g_key_file_parse_value_as_integer raw with
      | (v, None) => v mod 2 ^ 32
      | (_, Some _) => default_value
      end
  | None => default_value
  end.
Proof.
  unfold uint_field, raw_value.
  destruct (key_file !! group_name) as [group |]; reflexivity.
Qed.

End KeyFileFacts.

(** ** String values: escaping, unescaping and UTF-8 *)

Section StringCodecFacts.

Lemma parse_value_as_string_escaped s :
  forall leading,
    g_key_file_parse_value_as_string (parse_string_as_value leading s) = (s, None).
Proof.
  induction s as [| c rest IH]; intros leading; [reflexivity |].
  cbn [parse_string_as_value].
  destruct (Ascii.eqb_spec c SPACE) as [-> | Hspace].
  { destruct leading; cbn [g_key_file_parse_value_as_string].
    - rewrite Ascii.eqb_refl, IH. reflexivity.
    - rewrite IH. reflexivity. }
  destruct (Ascii.eqb_spec c TAB) as [-> | Htab].
  { destruct leading; cbn [g_key_file_parse_value_as_string].
    - rewrite Ascii.eqb_refl, IH. reflexivity.
    - rewrite IH. reflexivity. }
  destruct (Ascii.eqb_spec c LF) as [-> | Hlf].
  { cbn [g_key_file_parse_value_as_string]. rewrite Ascii.eqb_refl, IH. reflexivity. }
  destruct (Ascii.eqb_spec c CR) as [-> | Hcr].
  { cbn [g_key_file_parse_value_as_string]. rewrite Ascii.eqb_refl, IH. reflexivity. }
  destruct (Ascii.eqb_spec c BACKSLASH) as [-> | Hbs].
  { cbn [g_key_file_parse_value_as_string]. rewrite Ascii.eqb_refl, IH. reflexivity. }
  cbn [g_key_file_parse_value_as_string].
  destruct (Ascii.eqb_spec c BACKSLASH) as [Heq | _]; [contradiction |].
  rewrite IH. reflexivity.
Qed.

Lemma validate_ascii c rest :
  byte_of c < 128 -> g_utf8_validate (String c rest) = g_utf8_validate rest.
Proof.
  intros Hc. cbn [g_utf8_validate].
  destruct (Z.ltb_spec (byte_of c) 128); [reflexivity | lia].
Qed.

(** Bytes of 128 and above are copied as they are. *)
Lemma escape_high c rest leading :
  128 <= byte_of c ->
  parse_string_as_value leading (String c rest) =
  String c (parse_string_as_value false rest).
Proof.
  intros Hc. cbn [parse_string_as_value].
  destruct (Ascii.eqb_spec c SPACE) as [-> | _];
    [assert (byte_of SPACE = 32) by reflexivity; lia |].
  destruct (Ascii.eqb_spec c TAB) as [-> | _];
    [assert (byte_of TAB = 9) by reflexivity; lia |].
  destruct (Ascii.eqb_spec c LF) as [-> | _];
    [assert (byte_of LF = 10) by reflexivity; lia |].
  destruct (Ascii.eqb_spec c CR) as [-> | _];
    [assert (byte_of CR = 13) by reflexivity; lia |].
  destruct (Ascii.eqb_spec c BACKSLASH) as [-> | _];
    [assert (byte_of BACKSLASH = 92) by reflexivity; lia |].
  reflexivity.
Qed.

Lemma is_continuation_high c : is_continuation c = true -> 128 <= byte_of c.
Proof. unfold is_continuation. intros H. apply andb_prop in H as [H _]. lia. Qed.

Lemma in_range_high lo hi c : 128 <= lo -> in_range lo hi c = true -> 128 <= byte_of c.
Proof. unfold in_range. intros Hlo H. apply andb_prop in H as [H _]. lia. Qed.

Lemma escape_ascii_valid c rest leading :
  byte_of c < 128 ->
  exists leading',
    g_utf8_validate (parse_string_as_value leading (String c rest)) =
    g_utf8_validate (parse_string_as_value leading' rest).
Proof.
  intros Hc. cbn [parse_string_as_value].
  destruct (Ascii.eqb c SPACE); [destruct leading |];
    [| | destruct (Ascii.eqb c TAB); [destruct leading |];
         [| | destruct (Ascii.eqb c LF);
                [| destruct (Ascii.eqb c CR); [| destruct (Ascii.eqb c BACKSLASH)]]]];
    eexists;
    rewrite ?(validate_ascii BACKSLASH), ?(validate_ascii LOWER_S),
      ?(validate_ascii LOWER_T), ?(validate_ascii LOWER_N), ?(validate_ascii LOWER_R),
      ?(validate_ascii c) by (try exact Hc; vm_compute; reflexivity);
    reflexivity.
Qed.

Lemma escape_preserves_utf8_bounded n :
  forall s leading,
    (String.length s <= n)%nat ->
    g_utf8_validate s = true ->
    g_utf8_validate (parse_string_as_value leading s) = true.
Proof.
  induction n as [| n IH]; intros s leading Hlen Hvalid.
  - destruct s; [reflexivity | cbn [String.length] in Hlen; lia].
  - destruct s as [| c rest]; [reflexivity |].
    cbn [String.length] in Hlen.
    destruct (Z.ltb_spec (byte_of c) 128) as [Hlow | Hhigh].
    + destruct (escape_ascii_valid c rest leading Hlow) as [leading' ->].
      rewrite validate_ascii in Hvalid by exact Hlow.
      apply IH; [lia | exact Hvalid].
    + rewrite escape_high by exact Hhigh.
      cbn [g_utf8_validate] in Hvalid |- *.
      destruct (byte_of c <? 128) eqn:E0; [lia |].
      destruct ((194 <=? byte_of c) && (byte_of c <=? 223)) eqn:E2.
      { destruct rest as [| c1 r]; [discriminate |].
        apply andb_prop in Hvalid as [Hc1 Hr].
        rewrite escape_high by (apply is_continuation_high; exact Hc1).
        rewrite Hc1. cbn [andb].
        apply IH; [cbn [String.length] in Hlen; lia | exact Hr]. }
      destruct ((224 <=? byte_of c) && (byte_of c <=? 239)) eqn:E3.
      { destruct rest as [| c1 [| c2 r]]; try discriminate.
        apply andb_prop in Hvalid as [Hvalid Hr].
        apply andb_prop in Hvalid as [Hc1 Hc2].
        assert (128 <= byte_of c1) as Hh1.
        { destruct (byte_of c =? 224); [eapply in_range_high; [| exact Hc1]; lia |].
          destruct (byte_of c =? 237); [eapply in_range_high; [| exact Hc1]; lia |].
          apply is_continuation_high; exact Hc1. }
        rewrite (escape_high c1) by exact Hh1.
        rewrite (escape_high c2) by (apply is_continuation_high; exact Hc2).
        rewrite Hc1, Hc2. cbn [andb].
        apply IH; [cbn [String.length] in Hlen; lia | exact Hr]. }
      destruct ((240 <=? byte_of c) && (byte_of c <=? 244)) eqn:E4; [| discriminate].
      destruct rest as [| c1 [| c2 [| c3 r]]]; try discriminate.
      apply andb_prop in Hvalid as [Hvalid Hr].
      apply andb_prop in Hvalid as [Hvalid Hc3].
      apply andb_prop in Hvalid as [Hc1 Hc2].
      assert (128 <= byte_of c1) as Hh1.
      { destruct (byte_of c =? 240); [eapply in_range_high; [| exact Hc1]; lia |].
        destruct (byte_of c =? 244); [eapply in_range_high; [| exact Hc1]; lia |].
        apply is_continuation_high; exact Hc1. }
      rewrite (escape_high c1) by exact Hh1.
      rewrite (escape_high c2) by (apply is_continuation_high; exact Hc2).
      rewrite (escape_high c3) by (apply is_continuation_high; exact Hc3).
      rewrite Hc1, Hc2, Hc3. cbn [andb].
      apply IH; [cbn [String.length] in Hlen; lia | exact Hr].
Qed.

Lemma escape_preserves_utf8 s :
  g_utf8_validate s = true ->
  g_utf8_validate (g_key_file_parse_string_as_value s) = true.
Proof.
  apply (escape_preserves_utf8_bounded (String.length s)). lia.
Qed.

End StringCodecFacts.

(** ** The numbered location keys *)

Section LocationKeyFacts.

Lemma substring_whole s : forall n, (String.length s <= n)%nat -> substring 0 n s = s.
Proof.
  induction s as [| c rest IH]; intros n Hlen.
  - destruct n; reflexivity.
  - cbn [String.length] in Hlen. destruct n as [| n]; [lia |].
    cbn [substring]. rewrite IH by lia. reflexivity.
Qed.

(** The 100-byte buffer never truncates the key. *)
Lemma location_key_numbered pos : location_key pos = numbered_key (to_gint pos).
Proof.
  unfold location_key, numbered_key, snprintf. apply substring_whole.
  pose proof (printf_d_length (to_gint pos)) as Hlen.
  cbv [String.append]. cbn [String.length]. lia.
Qed.

Lemma numbered_key_inj a b :
  is_gint a -> is_gint b -> numbered_key a = numbered_key b -> a = b.
Proof.
  unfold numbered_key. cbv [String.append]. intros Ha Hb Heq.
  apply printf_d_inj; [exact Ha | exact Hb |]. congruence.
Qed.

Lemma location_key_inj p q :
  is_uint32 p -> is_uint32 q -> location_key p = location_key q -> p = q.
Proof.
  rewrite !location_key_numbered. intros Hp Hq Heq.
  apply to_gint_inj; [exact Hp | exact Hq |].
  apply numbered_key_inj; [apply to_gint_range | apply to_gint_range | exact Heq].
Qed.

Lemma location_key_eqb p q :
  is_uint32 p -> is_uint32 q ->
  String.eqb (location_key p) (location_key q) = (p =? q).
Proof.
  intros Hp Hq. destruct (Z.eqb_spec p q) as [-> | Hne].
  - apply String.eqb_refl.
  - apply String.eqb_neq. intros Heq. apply Hne. now apply location_key_inj.
Qed.

(** Below 2^31 the key carries the plain decimal index. *)
Lemma location_key_decimal i :
  0 <= i <= INT_MAX -> location_key i = numbered_key i.
Proof.
  intros Hi. rewrite location_key_numbered, to_gint_small; [reflexivity |].
  unfold is_gint, INT_MIN, INT_MAX in *. lia.
Qed.

End LocationKeyFacts.

(** ** The loops over the locations *)

Section LoopFacts.

Implicit Types (key_file : GKeyFile) (config : FsearchConfig).

Lemma set_locations_same config : set_locations (locations config) config = config.
Proof. now destruct config. Qed.

Lemma save_locations_other_group l :
  forall key_file pos group_name key,
    group_name <> "Database" ->
    raw_value (save_locations key_file l pos) group_name key =
    raw_value key_file group_name key.
Proof.
  induction l as [| data next IH]; intros key_file pos group_name key Hne;
    cbn [save_locations]; [reflexivity |].
  rewrite IH by exact Hne. unfold g_key_file_set_string.
  rewrite raw_value_set_value.
  destruct (String.eqb_spec "Database" group_name) as [Heq | _]; [| reflexivity].
  now subst.
Qed.

Lemma save_locations_untouched l :
  forall key_file pos q,
    0 <= pos -> pos + Z.of_nat (length l) <= UINT32_MOD -> is_uint32 q ->
    ~ (pos <= q < pos + Z.of_nat (length l)) ->
    raw_value (save_locations key_file l pos) "Database" (location_key q) =
    raw_value key_file "Database" (location_key q).
Proof.
  induction l as [| data next IH]; intros key_file pos q Hpos Hlen Hq Hout;
    cbn [save_locations]; [reflexivity |].
  cbn [length] in Hlen, Hout. rewrite Nat2Z.inj_succ in Hlen, Hout.
  assert (Hhere : raw_value
            (g_key_file_set_string key_file "Database" (location_key pos) data)
            "Database" (location_key q) =
          raw_value key_file "Database" (location_key q)).
  { unfold g_key_file_set_string. rewrite raw_value_set_value.
    rewrite location_key_eqb by (unfold is_uint32 in *; lia).
    destruct (Z.eqb_spec pos q); [lia | reflexivity]. }
  destruct next as [| data' next'].
  - cbn [save_locations]. exact Hhere.
  - cbn [length] in Hlen, Hout, IH. rewrite Nat2Z.inj_succ in Hlen, Hout.
    rewrite to_uint32_small by (unfold is_uint32; lia).
    rewrite IH; [exact Hhere | lia | | exact Hq |].
    + cbn [length]. rewrite Nat2Z.inj_succ. lia.
    + cbn [length]. rewrite Nat2Z.inj_succ. lia.
Qed.

Lemma save_locations_written l :
  forall key_file pos i s,
    0 <= pos -> pos + Z.of_nat (length l) <= UINT32_MOD ->
    l !! i = Some s ->
    raw_value (save_locations key_file l pos) "Database"
      (location_key (pos + Z.of_nat i)) =
    Some (g_key_file_parse_string_as_value s).
Proof.
  induction l as [| data next IH]; intros key_file pos i s Hpos Hlen Hi;
    [discriminate |].
  cbn [length] in Hlen. rewrite Nat2Z.inj_succ in Hlen.
  cbn [save_locations]. destruct i as [| i].
  - injection Hi as ->. rewrite Z.add_0_r.
    destruct next as [| data' next'].
    + cbn [save_locations]. unfold g_key_file_set_string.
      rewrite raw_value_set_value, !String.eqb_refl. reflexivity.
    + cbn [length] in Hlen. rewrite Nat2Z.inj_succ in Hlen.
      rewrite to_uint32_small by (unfold is_uint32; lia).
      rewrite save_locations_untouched.
      * unfold g_key_file_set_string.
        rewrite raw_value_set_value, !String.eqb_refl. reflexivity.
      * lia.
      * cbn [length]. rewrite Nat2Z.inj_succ. lia.
      * unfold is_uint32. lia.
      * lia.
  - cbn in Hi. pose proof (lookup_lt_Some _ _ _ Hi) as Hlt.
    rewrite to_uint32_small by (unfold is_uint32; lia).
    replace (pos + Z.of_nat (S i)) with (pos + 1 + Z.of_nat i) by lia.
    apply IH; [lia | lia | exact Hi].
Qed.

Lemma save_locations_keys l :
  forall key_file pos key,
    is_uint32 pos ->
    is_Some (raw_value (save_locations key_file l pos) "Database" key) ->
    is_Some (raw_value key_file "Database" key)
    \/ exists i, (i < length l)%nat /\ key = location_key (to_uint32 (pos + Z.of_nat i)).
Proof.
  induction l as [| data next IH]; intros key_file pos key Hpos Hsome;
    cbn [save_locations] in Hsome; [left; exact Hsome |].
  apply IH in Hsome as [Hsome | (i & Hi & ->)]; [| | apply to_uint32_range].
  - unfold g_key_file_set_string in Hsome. rewrite raw_value_set_value in Hsome.
    rewrite String.eqb_refl in Hsome. cbn [andb] in Hsome.
    destruct (String.eqb_spec (location_key pos) key) as [<- | _].
    + right. exists 0%nat. split; [cbn [length]; lia |].
      rewrite Z.add_0_r, to_uint32_small by exact Hpos. reflexivity.
    + left. exact Hsome.
  - right. exists (S i). split; [cbn [length]; lia |].
    now rewrite to_uint32_succ_add.
Qed.

Lemma load_locations_reads vs :
  forall fuel key_file pos config,
    is_uint32 pos ->
    (forall i v, vs !! i = Some v ->
       string_field key_file "Database"
         (location_key (to_uint32 (pos + Z.of_nat i))) = Some v) ->
    string_field key_file "Database"
      (location_key (to_uint32 (pos + Z.of_nat (length vs)))) = None ->
    (length vs < fuel)%nat ->
    load_locations fuel key_file pos config =
    Some (set_locations (locations config ++ vs) config).
Proof.
  induction vs as [| v vs IH]; intros fuel key_file pos config Hpos Hread Hend Hfuel;
    (destruct fuel as [| fuel]; [cbn [length] in Hfuel; lia |]);
    cbn [load_locations]; rewrite config_load_string_field.
  - cbn [length] in Hend. rewrite Z.add_0_r, to_uint32_small in Hend by exact Hpos.
    rewrite Hend, app_nil_r, set_locations_same. reflexivity.
  - pose proof (Hread 0%nat v eq_refl) as Hfirst.
    rewrite Z.add_0_r, to_uint32_small in Hfirst by exact Hpos.
    rewrite Hfirst, IH.
    + unfold g_list_append. cbn [locations set_locations].
      rewrite <- app_assoc. reflexivity.
    + apply to_uint32_range.
    + intros i w Hi. rewrite to_uint32_succ_add. apply (Hread (S i)). exact Hi.
    + rewrite to_uint32_succ_add. exact Hend.
    + cbn [length] in Hfuel. lia.
Qed.

(** The loop ends as soon as one key of the sequence cannot be read, and
    it changes nothing but [locations]. *)
Lemma load_locations_ends n :
  forall fuel key_file pos config,
    is_uint32 pos ->
    string_field key_file "Database"
      (location_key (to_uint32 (pos + Z.of_nat n))) = None ->
    (n < fuel)%nat ->
    exists l, load_locations fuel key_file pos config = Some (set_locations l config).
Proof.
  induction n as [| n IH]; intros fuel key_file pos config Hpos Hend Hfuel;
    (destruct fuel as [| fuel]; [lia |]);
    cbn [load_locations]; rewrite config_load_string_field.
  - rewrite Z.add_0_r, to_uint32_small in Hend by exact Hpos.
    rewrite Hend. exists (locations config). now rewrite set_locations_same.
  - destruct (string_field key_file "Database" (location_key pos)) as [v |].
    + destruct (IH fuel key_file (to_uint32 (pos + 1))
                  (set_locations (g_list_append (locations config) v) config))
        as [l Hl].
      * apply to_uint32_range.
      * rewrite to_uint32_succ_add. exact Hend.
      * lia.
      * exists l. exact Hl.
    + exists (locations config). now rewrite set_locations_same.
Qed.

End LoopFacts.

(** ** The loop of [load_config] ends on every file of ordinary size

    The first 2^32 keys the loop asks for are pairwise different, so a
    [Database] group with fewer keys than that misses one of them. *)

Section Termination.

Implicit Types (key_file : GKeyFile).

Lemma raw_value_database key_file key :
  raw_value key_file "Database" key =
  default (∅ : gmap string string) (key_file !! "Database") !! key.
Proof.
  unfold raw_value. destruct (key_file !! "Database"); [reflexivity |].
  symmetry. apply lookup_empty.
Qed.

Lemma to_uint32_succ_inj (a b : nat) :
  Z.of_nat a < UINT32_MOD -> Z.of_nat b < UINT32_MOD ->
  to_uint32 (1 + Z.of_nat a) = to_uint32 (1 + Z.of_nat b) -> a = b.
Proof.
  unfold to_uint32, UINT32_MOD. intros Ha Hb Heq.
  destruct (Z.eq_dec (1 + Z.of_nat a) 4294967296) as [Ha' | Ha'];
    destruct (Z.eq_dec (1 + Z.of_nat b) 4294967296) as [Hb' | Hb'].
  - lia.
  - rewrite Ha', Z.mod_same, Z.mod_small in Heq by lia. lia.
  - rewrite Hb', Z.mod_same, Z.mod_small in Heq by lia. lia.
  - rewrite !Z.mod_small in Heq by lia. lia.
Qed.

Lemma read_or_end key_file k :
  (exists n, (n < k)%nat /\ locations_end key_file n)
  \/ (forall n, (n < k)%nat ->
        is_Some (raw_value key_file "Database"
                   (location_key (to_uint32 (1 + Z.of_nat n))))).
Proof.
  induction k as [| k [(n & Hn & Hend) | Hall]].
  - right. intros n Hn. lia.
  - left. exists n. split; [lia | exact Hend].
  - destruct (string_field key_file "Database"
                (location_key (to_uint32 (1 + Z.of_nat k)))) as [v |] eqn:Hk.
    + right. intros n Hn. destruct (Nat.eq_dec n k) as [-> | Hne].
      * unfold string_field in Hk.
        destruct (raw_value key_file "Database" _); [eauto | discriminate].
      * apply Hall. lia.
    + left. exists k. split; [lia | exact Hk].
Qed.

Lemma database_locations_end key_file :
  Z.of_nat (database_size key_file) < UINT32_MOD ->
  exists n, (n <= database_size key_file)%nat /\ locations_end key_file n.
Proof.
  intros Hsize.
  destruct (read_or_end key_file (S (database_size key_file)))
    as [(n & Hn & Hend) | Hall]; [exists n; split; [lia | exact Hend] |].
  exfalso.
  set (group := default (∅ : gmap string string) (key_file !! "Database")) in *.
  set (key := fun n : nat => location_key (to_uint32 (1 + Z.of_nat n))) in *.
  set (asked := key <$> seq 0 (S (database_size key_file))).
  assert (Hnodup : NoDup asked).
  { apply NoDup_fmap_2_strong; [| apply NoDup_seq].
    intros a b Ha Hb Heq. apply elem_of_seq in Ha, Hb.
    apply to_uint32_succ_inj; [lia | lia |].
    apply location_key_inj; [apply to_uint32_range | apply to_uint32_range | exact Heq]. }
  assert (Hsub : (list_to_set asked : gset string) ⊆ dom group).
  { intros x Hx. apply elem_of_list_to_set, list_elem_of_fmap in Hx as (n & -> & Hn).
    apply elem_of_seq in Hn. apply elem_of_dom.
    unfold group. rewrite <- raw_value_database. apply Hall. lia. }
  apply subseteq_size in Hsub.
  rewrite size_list_to_set, size_dom in Hsub by exact Hnodup.
  unfold asked in Hsub. rewrite length_fmap, length_seq in Hsub.
  unfold database_size in Hsub. fold group in Hsub. lia.
Qed.

End Termination.

(** ** [load_config] and [save_config] as a whole *)

Section ConfigFacts.

Implicit Types (key_file : GKeyFile) (config : FsearchConfig) (fs : FileSystem).

Lemma load_config_unloadable fuel config fs :
  fst (g_key_file_load_from_file g_key_file_new fs) = false ->
  load_config fuel config fs = Some (false, config).
Proof.
  unfold load_config. destruct (g_key_file_load_from_file g_key_file_new fs) as [[] kf];
    cbn [fst]; [discriminate | reflexivity].
Qed.

Lemma load_config_loaded fuel config fs key_file :
  config_file fs = FileKeyData key_file ->
  load_config fuel config fs =
  match load_locations fuel key_file 1
          (loaded_record key_file (locations config)) with
  | Some config' => Some (true, config')
  | None => None
  end.
Proof.
  intros Hfile. unfold load_config, g_key_file_load_from_file. rewrite Hfile.
  rewrite !config_load_boolean_field, config_load_integer_field. reflexivity.
Qed.

(** A successful load: the scalars come from the file, the locations read
    are appended to those the record already had. *)
Lemma load_config_reads fuel config fs key_file vs :
  config_file fs = FileKeyData key_file ->
  (forall i v, vs !! i = Some v ->
     string_field key_file "Database"
       (location_key (to_uint32 (1 + Z.of_nat i))) = Some v) ->
  locations_end key_file (length vs) ->
  (length vs < fuel)%nat ->
  load_config fuel config fs =
  Some (true, loaded_record key_file (locations config ++ vs)).
Proof.
  intros Hfile Hread Hend Hfuel.
  rewrite (load_config_loaded fuel config fs key_file Hfile).
  rewrite (load_locations_reads vs); try assumption; [reflexivity |].
  unfold is_uint32, UINT32_MOD. lia.
Qed.

Lemma load_config_ends fuel config fs key_file n :
  config_file fs = FileKeyData key_file ->
  locations_end key_file n ->
  (n < fuel)%nat ->
  exists l, load_config fuel config fs = Some (true, loaded_record key_file l).
Proof.
  intros Hfile Hend Hfuel.
  rewrite (load_config_loaded fuel config fs key_file Hfile).
  destruct (load_locations_ends n fuel key_file 1
              (loaded_record key_file (locations config))) as [l Hl];
    try assumption; [unfold is_uint32, UINT32_MOD; lia |].
  rewrite Hl. exists l. reflexivity.
Qed.

(** On a file whose [Database] group has fewer than 2^32 keys the load
    returns, whatever else the file holds. *)
Lemma load_config_returns fuel config fs key_file :
  config_file fs = FileKeyData key_file ->
  Z.of_nat (database_size key_file) < UINT32_MOD ->
  (database_size key_file < fuel)%nat ->
  exists l, load_config fuel config fs = Some (true, loaded_record key_file l).
Proof.
  intros Hfile Hsize Hfuel.
  destruct (database_locations_end key_file Hsize) as (n & Hn & Hend).
  apply (load_config_ends fuel config fs key_file n); [exact Hfile | exact Hend | lia].
Qed.

Lemma save_config_unfold config fs :
  save_config config fs =
  (fst (g_key_file_save_to_file (key_file_of config) fs), config,
   snd (g_key_file_save_to_file (key_file_of config) fs)).
Proof.
  unfold save_config, key_file_of, scalar_key_file. cbv zeta.
  match goal with
  | |- context [g_key_file_save_to_file ?k ?f] =>
      destruct (g_key_file_save_to_file k f) as [[] fs']
  end; reflexivity.
Qed.

Lemma save_config_saved config fs config' fs' :
  save_config config fs = (true, config', fs') ->
  config' = config
  /\ config_file fs' = FileKeyData (g_key_file_parse_written (key_file_of config)).
Proof.
  rewrite save_config_unfold. unfold g_key_file_save_to_file.
  destruct (config_dir_exists fs && may_write_file fs); cbn [fst snd];
    intros H; inversion H; subst; split; reflexivity.
Qed.

Lemma key_file_of_locations config :
  key_file_of config = save_locations (scalar_key_file config) (locations config) 1.
Proof. unfold key_file_of. now destruct (locations config). Qed.

End ConfigFacts.

(** ** What a saved record looks like to the loaders *)

Section SavedFileFacts.

Implicit Types (config : FsearchConfig).

Lemma raw_value_new group_name key : raw_value g_key_file_new group_name key = None.
Proof. unfold raw_value, g_key_file_new. now rewrite lookup_empty. Qed.

Lemma parse_boolean_literal (b : bool) :
  g_key_file_parse_value_as_boolean (if b then "true" else "false") = (b, None).
Proof. now destruct b. Qed.

Lemma parse_integer_printf_d z :
  is_gint z -> g_key_file_parse_value_as_integer (printf_d z) = (z, None).
Proof.
  intros Hz. unfold g_key_file_parse_value_as_integer.
  rewrite strtol_printf_d, printf_d_not_empty by exact Hz. cbn [orb].
  rewrite to_gint_small, Z.eqb_refl by exact Hz. reflexivity.
Qed.

Ltac scalar_lookup :=
  rewrite key_file_of_locations, save_locations_other_group by discriminate;
  unfold scalar_key_file, g_key_file_set_boolean, g_key_file_set_integer;
  rewrite !raw_value_set_value.

Lemma bool_field_saved config group_name key default_value (b : bool) :
  raw_value (key_file_of config) group_name key = Some (if b then "true" else "false") ->
  bool_field (key_file_of config) group_name key default_value = b.
Proof.
  intros Hraw. now rewrite bool_field_raw, Hraw, parse_boolean_literal.
Qed.

Lemma loaded_record_saved config l :
  config_wf config ->
  loaded_record (key_file_of config) l = set_locations l config.
Proof.
  intros Hwf. unfold loaded_record, set_locations. f_equal.
  1-10: apply bool_field_saved; scalar_lookup; reflexivity.
  rewrite uint_field_raw. scalar_lookup. cbn [String.eqb Ascii.eqb Bool.eqb andb].
  rewrite parse_integer_printf_d by apply to_gint_range.
  apply to_uint32_to_gint. exact Hwf.
Qed.

Lemma scalar_key_file_no_database config key :
  raw_value (scalar_key_file config) "Database" key = None.
Proof.
  unfold scalar_key_file, g_key_file_set_boolean, g_key_file_set_integer.
  rewrite !raw_value_set_value. apply raw_value_new.
Qed.

Lemma string_field_escaped key_file group_name key s :
  raw_value key_file group_name key = Some (g_key_file_parse_string_as_value s) ->
  g_utf8_validate s = true ->
  string_field key_file group_name key = Some s.
Proof.
  intros Hraw Hvalid. unfold string_field. rewrite Hraw.
  rewrite escape_preserves_utf8 by exact Hvalid.
  unfold g_key_file_parse_string_as_value.
  now rewrite parse_value_as_string_escaped.
Qed.

Lemma string_field_missing key_file group_name key :
  raw_value key_file group_name key = None ->
  string_field key_file group_name key = None.
Proof. intros Hraw. unfold string_field. now rewrite Hraw. Qed.

(** Every location of a saved record is read back under the key the
    loop of [load_config] asks for. *)
Lemma saved_location_read config i s :
  Z.of_nat (length (locations config)) < UINT32_MOD ->
  locations config !! i = Some s ->
  g_utf8_validate s = true ->
  string_field (key_file_of config) "Database"
    (location_key (to_uint32 (1 + Z.of_nat i))) = Some s.
Proof.
  intros Hlen Hi Hvalid. pose proof (lookup_lt_Some _ _ _ Hi) as Hlt.
  rewrite to_uint32_small by (unfold is_uint32; lia).
  apply string_field_escaped; [| exact Hvalid].
  rewrite key_file_of_locations.
  apply save_locations_written; [lia | lia | exact Hi].
Qed.

(** ... and the key after the last one is not there. *)
Lemma saved_locations_end config :
  Z.of_nat (length (locations config)) < UINT32_MOD ->
  locations_end (key_file_of config) (length (locations config)).
Proof.
  intros Hlen. unfold locations_end. apply string_field_missing.
  rewrite key_file_of_locations, save_locations_untouched.
  - apply scalar_key_file_no_database.
  - lia.
  - lia.
  - apply to_uint32_range.
  - unfold to_uint32, UINT32_MOD in *.
    destruct (Z.eq_dec (1 + Z.of_nat (length (locations config))) 4294967296) as [-> | Hne].
    + rewrite Z.mod_same by lia. lia.
    + rewrite Z.mod_small by lia. lia.
Qed.

End SavedFileFacts.

(** ** The text on disk: what a saved value is read back as *)

Section TextOnDisk.

Implicit Types (key_file : GKeyFile) (config : FsearchConfig).

Lemma g_ascii_isspace_eqb c :
  g_ascii_isspace c =
  Ascii.eqb c SPACE || Ascii.eqb c TAB || Ascii.eqb c LF
  || Ascii.eqb c FORM_FEED || Ascii.eqb c CR.
Proof. destruct c as [[] [] [] [] [] [] [] []]; reflexivity. Qed.

Lemma g_ascii_isspace_ascii c : g_ascii_isspace c = true -> byte_of c < 128.
Proof.
  unfold g_ascii_isspace. intros H.
  repeat (apply orb_prop in H as [H | H]); apply Z.eqb_eq in H; lia.
Qed.

Lemma raw_value_parse_written key_file group_name key :
  raw_value (g_key_file_parse_written key_file) group_name key =
  chug_value <$> raw_value key_file group_name key.
Proof.
  unfold raw_value, g_key_file_parse_written. rewrite lookup_fmap.
  destruct (key_file !! group_name) as [group |]; cbn; [| reflexivity].
  apply lookup_fmap.
Qed.

Lemma database_size_parse_written key_file :
  database_size (g_key_file_parse_written key_file) = database_size key_file.
Proof.
  unfold database_size, g_key_file_parse_written. rewrite lookup_fmap.
  destruct (key_file !! "Database") as [group |]; cbn; [| reflexivity].
  apply map_size_fmap.
Qed.

Lemma chug_value_length value :
  (String.length (chug_value value) <= String.length value)%nat.
Proof.
  induction value as [| c rest IH]; [reflexivity |].
  cbn [chug_value]. destruct (g_ascii_isspace c); cbn [String.length]; lia.
Qed.

(** A value the parser leaves alone does not begin with white space. *)
Lemma chug_value_fixed c rest :
  chug_value (String c rest) = String c rest -> g_ascii_isspace c = false.
Proof.
  cbn [chug_value]. destruct (g_ascii_isspace c); [| reflexivity].
  intros Heq. pose proof (chug_value_length rest) as Hlen.
  rewrite Heq in Hlen. cbn [String.length] in Hlen. lia.
Qed.

Lemma chug_value_validate value :
  g_utf8_validate (chug_value value) = g_utf8_validate value.
Proof.
  induction value as [| c rest IH]; [reflexivity |].
  cbn [chug_value]. destruct (g_ascii_isspace c) eqn:Hc; [| reflexivity].
  now rewrite validate_ascii by (apply g_ascii_isspace_ascii; exact Hc).
Qed.

Lemma chug_boolean (b : bool) :
  chug_value (if b then "true" else "false") = (if b then "true" else "false").
Proof. now destruct b. Qed.

Lemma chug_printf_d z : chug_value (printf_d z) = printf_d z.
Proof.
  unfold printf_d. destruct (Z.ltb_spec z 0) as [Hneg | Hpos]; [reflexivity |].
  destruct (utoa_head 10 z "") as (d & rest & Hd & ->); [lia | lia |].
  cbn [chug_value]. unfold g_ascii_isspace. rewrite byte_of_digit_char by exact Hd.
  replace (48 + d =? 32) with false by (symmetry; apply Z.eqb_neq; lia).
  replace (48 + d =? 9) with false by (symmetry; apply Z.eqb_neq; lia).
  replace (48 + d =? 10) with false by (symmetry; apply Z.eqb_neq; lia).
  replace (48 + d =? 12) with false by (symmetry; apply Z.eqb_neq; lia).
  replace (48 + d =? 13) with false by (symmetry; apply Z.eqb_neq; lia).
  reflexivity.
Qed.

(** Inside a value (no longer at its beginning) blanks are not escaped,
    so once the parser has started skipping it skips them too. *)
Lemma chug_escape_inner t :
  chug_value (parse_string_as_value false t) = parse_string_as_value false (strip_blanks t).
Proof.
  induction t as [| c rest IH]; [reflexivity |].
  cbn [parse_string_as_value strip_blanks].
  destruct (Ascii.eqb_spec c SPACE) as [-> | Hspace].
  { cbn [chug_value]. exact IH. }
  destruct (Ascii.eqb_spec c TAB) as [-> | Htab].
  { cbn [chug_value]. exact IH. }
  destruct (Ascii.eqb_spec c LF) as [-> | Hlf]; [reflexivity |].
  destruct (Ascii.eqb_spec c CR) as [-> | Hcr]; [reflexivity |].
  destruct (Ascii.eqb_spec c BACKSLASH) as [-> | Hbs]; [reflexivity |].
  destruct (Ascii.eqb_spec c FORM_FEED) as [-> | Hff].
  { cbn [chug_value orb]. exact IH. }
  cbn [orb chug_value]. rewrite g_ascii_isspace_eqb.
  apply Ascii.eqb_neq in Hspace, Htab, Hlf, Hcr, Hbs, Hff.
  rewrite Hspace, Htab, Hlf, Hcr, Hff. cbn [orb parse_string_as_value].
  rewrite Hspace, Htab, Hlf, Hcr, Hbs. reflexivity.
Qed.

(** Only a leading form feed lets the parser into the escaped text of a
    string. *)
Lemma chug_escape s :
  chug_value (g_key_file_parse_string_as_value s) =
  if starts_with_form_feed s
  then parse_string_as_value false (strip_blanks s)
  else g_key_file_parse_string_as_value s.
Proof.
  unfold g_key_file_parse_string_as_value. destruct s as [| c rest]; [reflexivity |].
  cbn [parse_string_as_value strip_blanks starts_with_form_feed].
  destruct (Ascii.eqb_spec c SPACE) as [-> | Hspace]; [reflexivity |].
  destruct (Ascii.eqb_spec c TAB) as [-> | Htab]; [reflexivity |].
  destruct (Ascii.eqb_spec c LF) as [-> | Hlf]; [reflexivity |].
  destruct (Ascii.eqb_spec c CR) as [-> | Hcr]; [reflexivity |].
  destruct (Ascii.eqb_spec c BACKSLASH) as [-> | Hbs]; [reflexivity |].
  destruct (Ascii.eqb_spec c FORM_FEED) as [-> | Hff].
  { cbn [chug_value orb]. apply chug_escape_inner. }
  cbn [chug_value]. rewrite g_ascii_isspace_eqb.
  apply Ascii.eqb_neq in Hspace, Htab, Hlf, Hcr, Hff.
  rewrite Hspace, Htab, Hlf, Hcr, Hff. reflexivity.
Qed.

(** The raw text of the scalars of a saved record. *)
Lemma scalar_raw_values config :
  let file := key_file_of config in
  let text (b : bool) := Some (if b then "true" else "false") in
  raw_value file "Interface" "enable_list_tooltips" = text (enable_list_tooltips config)
  /\ raw_value file "Interface" "enable_dark_theme" = text (enable_dark_theme config)
  /\ raw_value file "Interface" "show_menubar" = text (show_menubar config)
  /\ raw_value file "Interface" "show_statusbar" = text (show_statusbar config)
  /\ raw_value file "Interface" "show_filter" = text (show_filter config)
  /\ raw_value file "Interface" "show_search_button" = text (show_search_button config)
  /\ raw_value file "Search" "match_case" = text (match_case config)
  /\ raw_value file "Search" "enable_regex" = text (enable_regex config)
  /\ raw_value file "Search" "search_in_path" = text (search_in_path config)
  /\ raw_value file "Search" "limit_results" = text (limit_results config)
  /\ raw_value file "Search" "num_results"
     = Some (printf_d (to_gint (num_results config))).
Proof.
  cbv zeta.
  repeat split;
    rewrite key_file_of_locations, save_locations_other_group by discriminate;
    unfold scalar_key_file, g_key_file_set_boolean, g_key_file_set_integer;
    rewrite !raw_value_set_value; reflexivity.
Qed.

(** The scalars come back from disk as they were saved. *)
Lemma loaded_record_written config l :
  config_wf config ->
  loaded_record (g_key_file_parse_written (key_file_of config)) l = set_locations l config.
Proof.
  intros Hwf.
  destruct (scalar_raw_values config)
    as (H1 & H2 & H3 & H4 & H5 & H6 & H7 & H8 & H9 & H10 & H11).
  cbv zeta in *. unfold loaded_record, set_locations.
  rewrite !bool_field_raw, uint_field_raw, !raw_value_parse_written.
  rewrite H1, H2, H3, H4, H5, H6, H7, H8, H9, H10, H11.
  cbn [fmap option_fmap option_map].
  rewrite !chug_boolean, !parse_boolean_literal, chug_printf_d.
  rewrite parse_integer_printf_d by apply to_gint_range.
  f_equal. apply to_uint32_to_gint. exact Hwf.
Qed.

(** What a saved location is read back as. *)
Lemma written_location_read config i s :
  Z.of_nat (length (locations config)) < UINT32_MOD ->
  locations config !! i = Some s ->
  g_utf8_validate s = true ->
  string_field (g_key_file_parse_written (key_file_of config)) "Database"
    (location_key (to_uint32 (1 + Z.of_nat i)))
  = Some (read_back s).
Proof.
  intros Hlen Hi Hvalid. pose proof (lookup_lt_Some _ _ _ Hi) as Hlt.
  rewrite to_uint32_small by (unfold is_uint32; lia).
  unfold string_field. rewrite raw_value_parse_written, key_file_of_locations.
  rewrite (save_locations_written _ _ _ _ s) by (lia || exact Hi).
  cbn [fmap option_fmap option_map].
  rewrite chug_value_validate, escape_preserves_utf8 by exact Hvalid.
  rewrite chug_escape. unfold read_back, g_key_file_parse_string_as_value.
  destruct (starts_with_form_feed s); now rewrite parse_value_as_string_escaped.
Qed.

Lemma written_locations_end config :
  Z.of_nat (length (locations config)) < UINT32_MOD ->
  locations_end (g_key_file_parse_written (key_file_of config))
    (length (locations config)).
Proof.
  intros Hlen. pose proof (saved_locations_end config Hlen) as Hend.
  unfold locations_end, string_field in *. rewrite raw_value_parse_written.
  destruct (raw_value (key_file_of config) "Database" _) as [raw |] eqn:Hraw;
    [| reflexivity].
  exfalso. revert Hraw. rewrite key_file_of_locations, save_locations_untouched.
  - now rewrite scalar_key_file_no_database.
  - lia.
  - lia.
  - apply to_uint32_range.
  - unfold to_uint32, UINT32_MOD in *.
    destruct (Z.eq_dec (1 + Z.of_nat (length (locations config))) 4294967296) as [-> | Hne].
    + rewrite Z.mod_same by lia. lia.
    + rewrite Z.mod_small by lia. lia.
Qed.

End TextOnDisk.

(** ** The claims about the configuration store *)

Section LoadDefaults.

(** C3 : [load_default_config] always succeeds, and the record it leaves
    has every scalar at its documented default ([limit_results] being
    [true] here, [num_results] 10000) and no locations. *)
Theorem load_default_config_defaults (config : FsearchConfig) :
  load_default_config config =
  (true,
   {| enable_list_tooltips := true; enable_dark_theme := false;
      show_menubar := true; show_statusbar := true; show_filter := true;
      show_search_button := true; match_case := false; enable_regex := false;
      search_in_path := false; limit_results := true; num_results := 10000;
      locations := [] |}).
Proof. reflexivity. Qed.

End LoadDefaults.

Section LoadFailure.

(** C6 : when the configuration file is not there, cannot be read or is
    not a key file at all, [load_config] returns [false], and no field of
    the record has been filled in. *)
Theorem load_config_fails_without_key_file
  (fuel : nat) (config : FsearchConfig) (fs : FileSystem) :
  config_file fs = FileAbsent \/ config_file fs = FileUnreadable
  \/ config_file fs = FileMalformed ->
  load_config fuel config fs = Some (false, config).
Proof.
  intros Hfile. apply load_config_unloadable.
  unfold g_key_file_load_from_file.
  destruct Hfile as [-> | [-> | ->]]; reflexivity.
Qed.

Lemma load_config_fails_without_key_file_witness :
  config_file first_run = FileAbsent
  /\ load_config 0 sample_config first_run = Some (false, sample_config).
Proof.
  split; [reflexivity |].
  apply (load_config_fails_without_key_file 0 sample_config first_run).
  left. reflexivity.
Defined.

(** C9 : when [g_key_file_load_from_file] fails, [load_config] returns
    [false] and the record is exactly the one the caller passed in. *)
Theorem load_config_failure_keeps_record
  (fuel : nat) (config : FsearchConfig) (fs : FileSystem) :
  fst (g_key_file_load_from_file g_key_file_new fs) = false ->
  load_config fuel config fs = Some (false, config).
Proof. apply load_config_unloadable. Qed.

Lemma load_config_failure_keeps_record_witness :
  load_config 3 sample_config (on_disk FileMalformed) = Some (false, sample_config).
Proof.
  apply (load_config_failure_keeps_record 3 sample_config (on_disk FileMalformed)).
  reflexivity.
Defined.

End LoadFailure.

Section SaveFailure.

(** C8 : when [save_config] returns [false], the record it was given is
    unchanged in every field, the locations included. *)
Theorem save_config_failure_keeps_record
  (config config' : FsearchConfig) (fs fs' : FileSystem) :
  save_config config fs = (false, config', fs') -> config' = config.
Proof.
  rewrite save_config_unfold. intros H. inversion H. reflexivity.
Qed.

Lemma save_config_failure_keeps_record_witness :
  save_config sample_config read_only = (false, sample_config, read_only)
  /\ sample_config = sample_config.
Proof.
  assert (H : save_config sample_config read_only = (false, sample_config, read_only))
    by (vm_compute; reflexivity).
  split; [exact H |].
  exact (save_config_failure_keeps_record sample_config sample_config
           read_only read_only H).
Defined.

End SaveFailure.

Section FieldDefaults.

Lemma bool_field_missing key_file group_name key default_value :
  raw_value key_file group_name key = None ->
  bool_field key_file group_name key default_value = default_value.
Proof. intros Hraw. now rewrite bool_field_raw, Hraw. Qed.

Lemma parse_integer_is_gint raw v :
  g_key_file_parse_value_as_integer raw = (v, None) -> is_gint v.
Proof.
  unfold g_key_file_parse_value_as_integer.
  destruct (strtol raw) as [[long_value eof_int] erange].
  destruct (_ || _); [discriminate |].
  destruct (_ || _); [discriminate |].
  intros H. injection H as <-. apply to_gint_range.
Qed.

(** C2 : [load_default_config] sets [limit_results] to [true], while
    [load_config] sets it to [false] when the file has no
    [limit_results] key: the two defaults differ.  (The load is taken on
    any file whose [Database] group has fewer than 2^32 keys; on such a
    file the loop over the locations ends.) *)
Theorem limit_results_defaults_differ :
  (forall config, limit_results (snd (load_default_config config)) = true)
  /\ (forall fuel config fs key_file,
        config_file fs = FileKeyData key_file ->
        raw_value key_file "Search" "limit_results" = None ->
        Z.of_nat (database_size key_file) < UINT32_MOD ->
        (database_size key_file < fuel)%nat ->
        exists config',
          load_config fuel config fs = Some (true, config')
          /\ limit_results config' = false).
Proof.
  split; [reflexivity |].
  intros fuel config fs key_file Hfile Hmissing Hsize Hfuel.
  destruct (load_config_returns fuel config fs key_file Hfile Hsize Hfuel) as [l ->].
  eexists. split; [reflexivity |]. cbn [limit_results loaded_record].
  now apply bool_field_missing.
Qed.

Lemma limit_results_defaults_differ_witness :
  limit_results (snd (load_default_config zeroed_config)) = true
  /\ exists config',
       load_config 1 zeroed_config (on_disk (FileKeyData file_num_results_only))
       = Some (true, config')
       /\ limit_results config' = false.
Proof.
  split; [exact (proj1 limit_results_defaults_differ zeroed_config) |].
  apply (proj2 limit_results_defaults_differ 1%nat zeroed_config
           (on_disk (FileKeyData file_num_results_only)) file_num_results_only).
  - reflexivity.
  - vm_compute. reflexivity.
  - vm_compute. reflexivity.
  - vm_compute. lia.
Defined.



(** C10 : [num_results] is read as a signed [gint] and stored in a
    [uint32_t]: a negative value [v] that parses is kept as [v] modulo
    2^32, which is not the default; -1 becomes 4294967295.  (Any key file
    whose [Database] group has fewer than 2^32 keys.) *)
Theorem negative_num_results_wraps :
  (forall fuel config fs key_file raw v,
      config_file fs = FileKeyData key_file ->
      raw_value key_file "Search" "num_results" = Some raw ->
      g_key_file_parse_value_as_integer raw = (v, None) ->
      v < 0 ->
      Z.of_nat (database_size key_file) < UINT32_MOD ->
      (database_size key_file < fuel)%nat ->
      exists config',
        load_config fuel config fs = Some (true, config')
        /\ num_results config' = v mod 2 ^ 32
        /\ num_results config' = v + 2 ^ 32
        /\ num_results config' <> 10000)
  /\ (forall fuel config,
        (0 < fuel)%nat ->
        exists config',
          load_config fuel config (on_disk (FileKeyData file_num_results_minus_one))
          = Some (true, config')
          /\ num_results config' = 4294967295).
Proof.
  split.
  - intros fuel config fs key_file raw v Hfile Hraw Hparse Hneg Hsize Hfuel.
    destruct (load_config_returns fuel config fs key_file Hfile Hsize Hfuel) as [l ->].
    eexists. split; [reflexivity |]. cbn [num_results loaded_record].
    rewrite uint_field_raw, Hraw, Hparse.
    pose proof (parse_integer_is_gint raw v Hparse) as Hrange.
    assert (Hwrap : v mod 2 ^ 32 = v + 2 ^ 32).
    { apply (to_uint32_negative v). unfold is_gint in Hrange. lia. }
    unfold is_gint, INT_MIN in Hrange. repeat split; lia.
  - intros fuel config Hfuel.
    rewrite (load_config_reads fuel config _ file_num_results_minus_one []).
    + eexists. split; [reflexivity |]. vm_compute. reflexivity.
    + reflexivity.
    + intros i v Hi. discriminate.
    + vm_compute. reflexivity.
    + cbn [length]. exact Hfuel.
Qed.

Lemma negative_num_results_wraps_witness :
  g_key_file_parse_value_as_integer "-1" = (-1, None)
  /\ exists config',
       load_config 1 zeroed_config (on_disk (FileKeyData file_num_results_minus_one))
       = Some (true, config')
       /\ num_results config' = (-1) mod 2 ^ 32
       /\ num_results config' = -1 + 2 ^ 32
       /\ num_results config' <> 10000.
Proof.
  split; [reflexivity |].
  apply (proj1 negative_num_results_wraps 1%nat zeroed_config
           (on_disk (FileKeyData file_num_results_minus_one))
           file_num_results_minus_one "-1" (-1)).
  - reflexivity.
  - vm_compute. reflexivity.
  - reflexivity.
  - lia.
  - vm_compute. reflexivity.
  - vm_compute. lia.
Defined.

End FieldDefaults.

Section Locations.

Lemma get_string_field key_file group_name key v :
  g_key_file_get_string key_file group_name key = (Some v, None) ->
  string_field key_file group_name key = Some v.
Proof.
  unfold g_key_file_get_string, string_field, g_key_file_get_value, raw_value.
  destruct (key_file !! group_name) as [group |]; [| discriminate].
  destruct (group !! key) as [raw |]; [| discriminate].
  destruct (g_utf8_validate raw); [| discriminate].
  destruct (g_key_file_parse_value_as_string raw) as [s [e |]]; congruence.
Qed.

Lemma field_get_string key_file group_name key v :
  string_field key_file group_name key = Some v ->
  g_key_file_get_string key_file group_name key = (Some v, None).
Proof.
  unfold g_key_file_get_string, string_field, g_key_file_get_value, raw_value.
  destruct (key_file !! group_name) as [group |]; [| discriminate].
  destruct (group !! key) as [raw |]; [| discriminate].
  destruct (g_utf8_validate raw); [| discriminate].
  destruct (g_key_file_parse_value_as_string raw) as [s [e |]]; congruence.
Qed.

(** C4 : [load_config] asks for [location_1], [location_2], ... in this
    order and stops at the first index that is missing: the values of
    the keys before it are appended to the locations in that order and
    whatever follows the gap is not read.  With [location_1 = /a] and
    [location_3 = /c] only, the locations loaded are ["/a"]. *)
Theorem load_stops_at_first_gap :
  (forall fuel config fs key_file (vs : list string),
      config_file fs = FileKeyData key_file ->
      Z.of_nat (length vs) < INT_MAX ->
      (forall i v, vs !! i = Some v ->
         g_key_file_get_string key_file "Database" (numbered_key (Z.of_nat i + 1))
         = (Some v, None)) ->
      raw_value key_file "Database" (numbered_key (Z.of_nat (length vs) + 1)) = None ->
      (length vs < fuel)%nat ->
      exists config',
        load_config fuel config fs = Some (true, config')
        /\ locations config' = (locations config ++ vs)%list)
  /\ (forall fuel config,
        (1 < fuel)%nat ->
        locations config = [] ->
        exists config',
          load_config fuel config (on_disk (FileKeyData file_location_gap))
          = Some (true, config')
          /\ locations config' = ["/a"]).
Proof.
  assert (Hkey : forall i, 0 <= i < INT_MAX ->
            location_key (to_uint32 (1 + i)) = numbered_key (i + 1)).
  { intros i Hi. unfold INT_MAX in Hi.
    rewrite to_uint32_small by (unfold is_uint32, UINT32_MOD; lia).
    rewrite location_key_decimal by (unfold INT_MAX; lia). f_equal. lia. }
  split.
  - intros fuel config fs key_file vs Hfile Hlen Hread Hgap Hfuel.
    rewrite (load_config_reads fuel config fs key_file vs); try assumption.
    + eexists. split; reflexivity.
    + intros i v Hi. pose proof (lookup_lt_Some _ _ _ Hi) as Hlt.
      rewrite Hkey by lia. apply get_string_field, Hread, Hi.
    + unfold locations_end. rewrite Hkey by lia.
      apply string_field_missing, Hgap.
  - intros fuel config Hfuel Hempty.
    rewrite (load_config_reads fuel config _ file_location_gap ["/a"]).
    + eexists. split; [reflexivity |]. cbn [locations loaded_record].
      now rewrite Hempty.
    + reflexivity.
    + intros [| [| i]] v Hi; try discriminate. injection Hi as <-.
      vm_compute. reflexivity.
    + vm_compute. reflexivity.
    + cbn [length]. exact Hfuel.
Qed.

Lemma load_stops_at_first_gap_witness :
  raw_value file_location_gap "Database" "location_2" = None
  /\ raw_value file_location_gap "Database" "location_3" = Some "/c"
  /\ exists config',
       load_config 2 sample_config (on_disk (FileKeyData file_location_gap))
       = Some (true, config')
       /\ locations config' = (locations sample_config ++ ["/a"])%list.
Proof.
  split; [vm_compute; reflexivity |].
  split; [vm_compute; reflexivity |].
  apply (proj1 load_stops_at_first_gap 2%nat sample_config
           (on_disk (FileKeyData file_location_gap)) file_location_gap ["/a"]).
  - reflexivity.
  - vm_compute. reflexivity.
  - intros [| [| i]] v Hi; try discriminate. injection Hi as <-.
    vm_compute. reflexivity.
  - vm_compute. reflexivity.
  - cbn [length]. lia.
Defined.

(** C7 : a successful [save_config] of a record with N locations (N
    below 2^31, the range of the [int] the keys are printed from) hands
    to [g_key_file_save_to_file] a key file whose [Database] group holds
    exactly the keys [location_1] to [location_N]: key [location_(i+1)]
    carries the [i]-th location of the record as [g_key_file_set_string]
    stores it, and is read back as that location when it is UTF-8.  The
    file this leaves on disk has the same keys in the same numbering;
    there the value is the stored text as the parser of "key=value" lines
    reads it, which is the location itself when that is UTF-8 and does not
    begin with a form feed. *)
Theorem save_numbers_locations
  (config config' : FsearchConfig) (fs fs' : FileSystem) :
  Z.of_nat (length (locations config)) <= INT_MAX ->
  save_config config fs = (true, config', fs') ->
  exists key_file,
    save_config config fs
    = (fst (g_key_file_save_to_file key_file fs), config,
       snd (g_key_file_save_to_file key_file fs))
    /\ config_file fs' = FileKeyData (g_key_file_parse_written key_file)
    /\ (forall i s, locations config !! i = Some s ->
          g_key_file_get_value key_file "Database" (numbered_key (Z.of_nat i + 1))
          = (Some (g_key_file_parse_string_as_value s), None))
    /\ (forall i s, locations config !! i = Some s ->
          g_utf8_validate s = true ->
          g_key_file_get_string key_file "Database" (numbered_key (Z.of_nat i + 1))
          = (Some s, None))
    /\ (forall key, is_Some (raw_value key_file "Database" key) ->
          exists i, (i < length (locations config))%nat
                    /\ key = numbered_key (Z.of_nat i + 1))
    /\ (forall i s, locations config !! i = Some s ->
          g_key_file_get_value (g_key_file_parse_written key_file) "Database"
            (numbered_key (Z.of_nat i + 1))
          = (Some (chug_value (g_key_file_parse_string_as_value s)), None))
    /\ (forall i s, locations config !! i = Some s ->
          g_utf8_validate s = true ->
          starts_with_form_feed s = false ->
          g_key_file_get_string (g_key_file_parse_written key_file) "Database"
            (numbered_key (Z.of_nat i + 1))
          = (Some s, None))
    /\ (forall key,
          is_Some (raw_value (g_key_file_parse_written key_file) "Database" key) ->
          exists i, (i < length (locations config))%nat
                    /\ key = numbered_key (Z.of_nat i + 1)).
Proof.
  intros Hlen Hsave. apply save_config_saved in Hsave as [_ Hfile].
  exists (key_file_of config).
  split; [apply save_config_unfold |]. split; [exact Hfile |].
  unfold INT_MAX in Hlen.
  assert (Hraw : forall i s, locations config !! i = Some s ->
            raw_value (key_file_of config) "Database" (numbered_key (Z.of_nat i + 1))
            = Some (g_key_file_parse_string_as_value s)).
  { intros i s Hi. pose proof (lookup_lt_Some _ _ _ Hi) as Hlt.
    rewrite key_file_of_locations, <- location_key_decimal by (unfold INT_MAX; lia).
    rewrite (Z.add_comm (Z.of_nat i) 1).
    apply save_locations_written; [lia | unfold UINT32_MOD; lia | exact Hi]. }
  assert (Hkeys : forall key, is_Some (raw_value (key_file_of config) "Database" key) ->
            exists i, (i < length (locations config))%nat
                      /\ key = numbered_key (Z.of_nat i + 1)).
  { intros key Hsome. rewrite key_file_of_locations in Hsome.
    apply save_locations_keys in Hsome as [Hsome | (i & Hi & ->)];
      [| | unfold is_uint32, UINT32_MOD; lia].
    + rewrite scalar_key_file_no_database in Hsome. destruct Hsome; discriminate.
    + exists i. split; [exact Hi |].
      rewrite to_uint32_small by (unfold is_uint32, UINT32_MOD; lia).
      rewrite location_key_decimal by (unfold INT_MAX; lia). f_equal. lia. }
  split; [| split; [| split; [| split; [| split]]]].
  - intros i s Hi. apply get_value_found, Hraw, Hi.
  - intros i s Hi Hvalid. apply field_get_string.
    apply string_field_escaped; [apply Hraw, Hi | exact Hvalid].
  - exact Hkeys.
  - intros i s Hi. apply get_value_found.
    now rewrite raw_value_parse_written, (Hraw i s Hi).
  - intros i s Hi Hvalid Hplain. apply field_get_string.
    apply string_field_escaped; [| exact Hvalid].
    rewrite raw_value_parse_written, (Hraw i s Hi). cbn [fmap option_fmap option_map].
    now rewrite chug_escape, Hplain.
  - intros key Hsome. apply Hkeys.
    rewrite raw_value_parse_written in Hsome. now apply fmap_is_Some in Hsome.
Qed.

Lemma save_numbers_locations_witness :
  exists key_file,
    config_file (snd (save_config sample_config (on_disk FileAbsent)))
    = FileKeyData (g_key_file_parse_written key_file)
    /\ g_key_file_get_value key_file "Database" "location_2"
       = (Some "\s/mnt/data disk", None)
    /\ g_key_file_get_string key_file "Database" "location_3"
       = (Some "/srv\share", None)
    /\ ~ is_Some (raw_value key_file "Database" "location_4")
    /\ g_key_file_get_string (g_key_file_parse_written key_file) "Database" "location_2"
       = (Some " /mnt/data disk", None).
Proof.
  destruct (save_numbers_locations sample_config sample_config (on_disk FileAbsent)
              (snd (save_config sample_config (on_disk FileAbsent))))
    as (key_file & _ & Hfile & Hraw & Hget & Hkeys & _ & Hdisk & _).
  - vm_compute. discriminate.
  - vm_compute. reflexivity.
  - exists key_file. split; [exact Hfile |]. split; [| split; [| split]].
    + exact (Hraw 1%nat " /mnt/data disk" eq_refl).
    + exact (Hget 2%nat "/srv\share" eq_refl eq_refl).
    + intros Hsome. destruct (Hkeys _ Hsome) as (i & Hi & Heq).
      cbn [locations sample_config length] in Hi.
      destruct i as [| [| [| i]]]; [discriminate.. | lia].
    + exact (Hdisk 1%nat " /mnt/data disk" eq_refl eq_refl eq_refl).
Defined.

End Locations.

Section RoundTrip.

(** C1, as stated, fails : a record with one location, the single byte
    0xFF (a legal file name, but not UTF-8): the directory is created,
    [save_config] and [load_config] both succeed, and the record loaded
    has no location at all, because [g_key_file_get_string] refuses a
    value that is not UTF-8 and the loop of [load_config] stops there. *)
Lemma round_trip_drops_non_utf8_location :
  locations latin1_config <> []
  /\ NoDup (locations latin1_config)
  /\ config_wf latin1_config
  /\ exists fs1 fs2 loaded,
       make_config_dir first_run = (true, fs1)
       /\ save_config latin1_config fs1 = (true, latin1_config, fs2)
       /\ g_key_file_get_string (key_file_of latin1_config) "Database" "location_1"
          = (None, Some G_KEY_FILE_ERROR_UNKNOWN_ENCODING)
       /\ load_config 1 zeroed_config fs2 = Some (true, loaded)
       /\ locations loaded = []
       /\ loaded <> latin1_config.
Proof.
  split; [discriminate |].
  split; [apply NoDup_singleton |].
  split; [unfold config_wf, is_uint32, UINT32_MOD; cbn; lia |].
  eexists _, _, _.
  split; [vm_compute; reflexivity |].
  split; [vm_compute; reflexivity |].
  split; [vm_compute; reflexivity |].
  split; [vm_compute; reflexivity |].
  split; [reflexivity | discriminate].
Qed.

(** C1, as stated, fails in a second way : a record whose one location
    is UTF-8 but begins with a form feed.  [g_key_file_set_string] escapes
    a leading blank or tab and every line break, but not a form feed; the
    parser skips it with the white space in front of the value, and the
    location comes back as "/a". *)
Lemma round_trip_strips_leading_form_feed :
  locations form_feed_config <> []
  /\ NoDup (locations form_feed_config)
  /\ config_wf form_feed_config
  /\ Forall (fun s => g_utf8_validate s = true) (locations form_feed_config)
  /\ exists fs1 fs2 loaded,
       make_config_dir first_run = (true, fs1)
       /\ save_config form_feed_config fs1 = (true, form_feed_config, fs2)
       /\ load_config 2 zeroed_config fs2 = Some (true, loaded)
       /\ locations loaded = ["/a"]
       /\ loaded <> form_feed_config.
Proof.
  split; [discriminate |].
  split; [apply NoDup_singleton |].
  split; [unfold config_wf, is_uint32, UINT32_MOD; cbn; lia |].
  split; [repeat constructor |].
  eexists _, _, _.
  split; [vm_compute; reflexivity |].
  split; [vm_compute; reflexivity |].
  split; [vm_compute; reflexivity |].
  split; [reflexivity | discriminate].
Qed.

(** C1, amended : for every record whose locations are UTF-8 text that
    does not begin with a form feed, fewer than 2^32 of them (the range of
    the loop counter), and whose [num_results] is a [uint32_t]: once the
    directory is ensured and [save_config] has succeeded, [load_config]
    into a record without locations succeeds and leaves a record equal to
    the saved one in every scalar and with the same locations in the same
    order. *)
Theorem round_trip_of_utf8_locations
  (saved config config' : FsearchConfig) (fs fs1 fs2 : FileSystem) (fuel : nat) :
  config_wf saved ->
  locations saved <> [] ->
  NoDup (locations saved) ->
  Forall (fun s => g_utf8_validate s = true) (locations saved) ->
  Forall (fun s => starts_with_form_feed s = false) (locations saved) ->
  Z.of_nat (length (locations saved)) < UINT32_MOD ->
  make_config_dir fs = (true, fs1) ->
  save_config saved fs1 = (true, config', fs2) ->
  locations config = [] ->
  (length (locations saved) < fuel)%nat ->
  load_config fuel config fs2 = Some (true, saved).
Proof.
  intros Hwf _ _ Hutf8 Hplain Hlen _ Hsave Hempty Hfuel.
  apply save_config_saved in Hsave as [_ Hfile].
  rewrite (load_config_reads fuel config fs2
             (g_key_file_parse_written (key_file_of saved)) (locations saved)).
  - rewrite Hempty, app_nil_l, loaded_record_written by exact Hwf.
    now rewrite set_locations_same.
  - exact Hfile.
  - intros i v Hi.
    rewrite Forall_forall in Hutf8, Hplain.
    assert (Hin : v ∈ locations saved) by (apply list_elem_of_lookup; eauto).
    rewrite (written_location_read saved i v Hlen Hi (Hutf8 v Hin)).
    unfold read_back. now rewrite (Hplain v Hin).
  - apply written_locations_end. exact Hlen.
  - exact Hfuel.
Qed.

Lemma round_trip_of_utf8_locations_witness :
  save_config sample_config (snd (make_config_dir first_run))
  = (true, sample_config,
     snd (save_config sample_config (snd (make_config_dir first_run))))
  /\ load_config 4 zeroed_config
       (snd (save_config sample_config (snd (make_config_dir first_run))))
     = Some (true, sample_config).
Proof.
  assert (Hsave : save_config sample_config (snd (make_config_dir first_run))
                  = (true, sample_config,
                     snd (save_config sample_config (snd (make_config_dir first_run)))))
    by (vm_compute; reflexivity).
  split; [exact Hsave |].
  apply (round_trip_of_utf8_locations sample_config zeroed_config sample_config
           first_run (snd (make_config_dir first_run))
           (snd (save_config sample_config (snd (make_config_dir first_run)))) 4).
  - unfold config_wf, is_uint32, UINT32_MOD. cbn. lia.
  - discriminate.
  - apply (bool_decide_unpack (NoDup (locations sample_config))). vm_compute. exact I.
  - repeat constructor.
  - repeat constructor.
  - vm_compute. reflexivity.
  - reflexivity.
  - exact Hsave.
  - reflexivity.
  - cbn. lia.
Defined.

End RoundTrip.

(** * Further properties of config.c *)

(** ** The configuration directory and the path of the file *)

Section Paths.

Lemma string_length_app a b :
  String.length (a +:+ b) = (String.length a + String.length b)%nat.
Proof.
  induction a as [| c a IH]; [reflexivity |].
  change (String c a +:+ b) with (String c (a +:+ b)).
  cbn [String.length]. now rewrite IH.
Qed.

Lemma string_app_assoc a b c : (a +:+ b) +:+ c = a +:+ (b +:+ c).
Proof.
  induction a as [| x a IH]; [reflexivity |].
  change ((String x a +:+ b) +:+ c) with (String x ((a +:+ b) +:+ c)).
  change (String x a +:+ (b +:+ c)) with (String x (a +:+ (b +:+ c))).
  now rewrite IH.
Qed.

Lemma substring_length_le s : forall n, (String.length (substring 0 n s) <= n)%nat.
Proof.
  induction s as [| c s IH]; intros [| n]; cbn [substring String.length]; try lia.
  specialize (IH n). lia.
Qed.

(** Cutting at [n] bytes does not see what follows the first [n]. *)
Lemma substring_app_filled a b :
  forall n, (n <= String.length a)%nat -> substring 0 n (a +:+ b) = substring 0 n a.
Proof.
  induction a as [| c a IH]; intros n Hn.
  - cbn [String.length] in Hn. assert (n = 0%nat) as -> by lia.
    destruct b; reflexivity.
  - change (String c a +:+ b) with (String c (a +:+ b)).
    destruct n as [| n]; [reflexivity |].
    cbn [substring]. cbn [String.length] in Hn. rewrite IH by lia. reflexivity.
Qed.

(** X1 : as long as the whole path fits into the buffer (the directory
    returned by GLib plus the 21 bytes of "/fsearch/fsearch.conf" and the
    final NUL), [build_config_path] names the file "fsearch.conf" inside
    the very directory [build_config_dir] names. *)
Theorem config_path_inside_config_dir (xdg_conf_dir path : string) (len : nat) :
  (String.length xdg_conf_dir + 21 < len)%nat ->
  build_config_path xdg_conf_dir path len =
  build_config_dir xdg_conf_dir path len +:+ "/" +:+ config_file_name.
Proof.
  intros Hfits. unfold build_config_path, build_config_dir, snprintf_into, snprintf.
  destruct len as [| len]; [lia |].
  rewrite !substring_whole.
  - now rewrite !string_app_assoc.
  - rewrite !string_length_app. cbn [String.length config_folder_name]. lia.
  - rewrite !string_length_app.
    cbn [String.length config_folder_name config_file_name]. lia.
Qed.

Lemma config_path_inside_config_dir_witness :
  build_config_path "/home/user/.config" "" PATH_MAX
  = "/home/user/.config/fsearch/fsearch.conf"
  /\ build_config_dir "/home/user/.config" "" PATH_MAX = "/home/user/.config/fsearch".
Proof.
  split; [| reflexivity].
  rewrite (config_path_inside_config_dir "/home/user/.config" "" PATH_MAX).
  - reflexivity.
  - vm_compute. lia.
Defined.

(** X2 : neither function stores more than [len - 1] bytes, and once the
    directory name alone fills the buffer the file path is cut to the
    same bytes: [build_config_path] then yields the path of the
    directory, not of a file in it. *)
Theorem config_path_cut_to_buffer (xdg_conf_dir path : string) (len : nat) :
  (0 < len)%nat ->
  (String.length (build_config_dir xdg_conf_dir path len) <= len - 1)%nat
  /\ (String.length (build_config_path xdg_conf_dir path len) <= len - 1)%nat
  /\ ((len <= String.length xdg_conf_dir + 9)%nat ->
      build_config_path xdg_conf_dir path len = build_config_dir xdg_conf_dir path len).
Proof.
  intros Hlen. unfold build_config_path, build_config_dir, snprintf_into, snprintf.
  destruct len as [| len]; [lia |].
  split; [apply substring_length_le |]. split; [apply substring_length_le |].
  intros Hfull.
  rewrite <- (string_app_assoc xdg_conf_dir "/" (config_folder_name +:+ _)).
  rewrite <- (string_app_assoc (xdg_conf_dir +:+ "/") config_folder_name).
  rewrite substring_app_filled.
  - now rewrite string_app_assoc.
  - rewrite !string_length_app. cbn [String.length config_folder_name]. lia.
Qed.

Lemma config_path_cut_to_buffer_witness :
  build_config_path "/home/user/.config" "" 20 = "/home/user/.config/"
  /\ build_config_dir "/home/user/.config" "" 20 = "/home/user/.config/".
Proof.
  destruct (config_path_cut_to_buffer "/home/user/.config" "" 20) as (_ & _ & Hsame);
    [lia |].
  rewrite Hsame by (vm_compute; lia). split; reflexivity.
Defined.

End Paths.

(** ** What the loaders report *)

Section Diagnostics.

Implicit Types (key_file : GKeyFile).

Lemma parse_boolean_error raw e :
  snd (g_key_file_parse_value_as_boolean raw) = Some e ->
  e = G_KEY_FILE_ERROR_INVALID_VALUE.
Proof.
  unfold g_key_file_parse_value_as_boolean.
  destruct (_ || _); [discriminate |]. destruct (_ || _); [discriminate |].
  cbn. congruence.
Qed.

Lemma parse_integer_error raw e :
  snd (g_key_file_parse_value_as_integer raw) = Some e ->
  e = G_KEY_FILE_ERROR_INVALID_VALUE.
Proof.
  unfold g_key_file_parse_value_as_integer.
  destruct (strtol raw) as [[long_value eof_int] erange].
  destruct (_ || _); [cbn; congruence |]. destruct (_ || _); cbn; congruence.
Qed.

Lemma parse_string_error raw :
  forall e, snd (g_key_file_parse_value_as_string raw) = Some e ->
            e = G_KEY_FILE_ERROR_INVALID_VALUE.
Proof.
  assert (H : forall n raw, (String.length raw <= n)%nat ->
            forall e, snd (g_key_file_parse_value_as_string raw) = Some e ->
                      e = G_KEY_FILE_ERROR_INVALID_VALUE).
  { clear raw. induction n as [| n IH]; intros raw Hlen e.
    - destruct raw; [discriminate | cbn [String.length] in Hlen; lia].
    - destruct raw as [| c rest]; [discriminate |].
      cbn [String.length] in Hlen. cbn [g_key_file_parse_value_as_string].
      destruct (Ascii.eqb c BACKSLASH).
      + destruct rest as [| x rest']; [cbn; congruence |].
        cbn [String.length] in Hlen.
        pose proof (IH rest' ltac:(lia)) as IH'.
        destruct (g_key_file_parse_value_as_string rest') as [tail error].
        cbn [snd] in IH'.
        repeat (destruct (Ascii.eqb x _); [cbn [snd]; apply IH' |]).
        cbn. congruence.
      + pose proof (IH rest ltac:(lia)) as IH'.
        destruct (g_key_file_parse_value_as_string rest) as [tail error].
        cbn [snd] in IH' |- *. apply IH'. }
  intros e. apply (H (String.length raw)). lia.
Qed.

(** X3 : [config_load_handle_error] is silent when the group or the key
    is missing, and reports every value that is there but cannot be used:
    "invalid value" for a Boolean, an integer or an escape sequence that
    does not parse, "unknown error" for a string that is not UTF-8. *)
Theorem loaders_report_unusable_values key_file group_name key :
  (raw_value key_file group_name key = None ->
   config_load_handle_error (snd (g_key_file_get_boolean key_file group_name key)) = None
   /\ config_load_handle_error (snd (g_key_file_get_integer key_file group_name key)) = None
   /\ config_load_handle_error (snd (g_key_file_get_string key_file group_name key)) = None)
  /\ (forall raw,
        raw_value key_file group_name key = Some raw ->
        config_load_handle_error (snd (g_key_file_get_boolean key_file group_name key))
        = match snd (g_key_file_parse_value_as_boolean raw) with
          | Some _ => Some InvalidValue
          | None => None
          end
        /\ config_load_handle_error (snd (g_key_file_get_integer key_file group_name key))
           = match snd (g_key_file_parse_value_as_integer raw) with
             | Some _ => Some InvalidValue
             | None => None
             end
        /\ config_load_handle_error (snd (g_key_file_get_string key_file group_name key))
           = if g_utf8_validate raw
             then match snd (g_key_file_parse_value_as_string raw) with
                  | Some _ => Some InvalidValue
                  | None => None
                  end
             else Some UnknownError).
Proof.
  unfold g_key_file_get_boolean, g_key_file_get_integer, g_key_file_get_string,
    g_key_file_get_value, raw_value.
  destruct (key_file !! group_name) as [group |].
  - destruct (group !! key) as [value |]; split; try discriminate.
    + intros raw [= <-]. repeat split.
      * destruct (snd (g_key_file_parse_value_as_boolean value)) as [e |] eqn:He;
          [| reflexivity].
        now rewrite (parse_boolean_error value e He).
      * destruct (snd (g_key_file_parse_value_as_integer value)) as [e |] eqn:He;
          [| reflexivity].
        now rewrite (parse_integer_error value e He).
      * destruct (g_utf8_validate value); [| reflexivity].
        pose proof (parse_string_error value) as Herr.
        destruct (g_key_file_parse_value_as_string value) as [s [e |]]; cbn [snd] in *;
          [| reflexivity].
        now rewrite (Herr e eq_refl).
    + intros _. repeat split.
  - split; [intros _; repeat split | discriminate].
Qed.

Lemma loaders_report_unusable_values_witness :
  config_load_handle_error
    (snd (g_key_file_get_boolean file_match_case_notabool "Search" "match_case"))
  = Some InvalidValue
  /\ config_load_handle_error
       (snd (g_key_file_get_boolean file_match_case_notabool "Search" "enable_regex"))
     = None
  /\ config_load_handle_error
       (snd (g_key_file_get_string (key_file_of latin1_config) "Database" "location_1"))
     = Some UnknownError.
Proof.
  split; [| split].
  - destruct (proj2 (loaders_report_unusable_values file_match_case_notabool
                       "Search" "match_case") "notabool") as (Hbool & _ & _);
      [vm_compute; reflexivity |].
    rewrite Hbool. reflexivity.
  - destruct (proj1 (loaders_report_unusable_values file_match_case_notabool
                       "Search" "enable_regex")) as (Hbool & _ & _);
      [vm_compute; reflexivity |].
    exact Hbool.
  - destruct (proj2 (loaders_report_unusable_values (key_file_of latin1_config)
                       "Database" "location_1") (String (ascii_of_N 255) EmptyString))
      as (_ & _ & Hstring); [vm_compute; reflexivity |].
    rewrite Hstring. reflexivity.
Defined.

End Diagnostics.

(** ** Escaping and unescaping keep text UTF-8 or not UTF-8 *)

Section Utf8Facts.

Lemma is_continuation_ascii a : byte_of a < 128 -> is_continuation a = false.
Proof.
  intros Ha. unfold is_continuation. apply andb_false_intro1. apply Z.leb_gt. lia.
Qed.

Lemma in_range_ascii lo hi a : 128 <= lo -> byte_of a < 128 -> in_range lo hi a = false.
Proof.
  intros Hlo Ha. unfold in_range. apply andb_false_intro1. apply Z.leb_gt. lia.
Qed.

Lemma escape_ascii_head c rest leading :
  byte_of c < 128 ->
  exists a tail,
    parse_string_as_value leading (String c rest) = String a tail /\ byte_of a < 128.
Proof.
  intros Hc. cbn [parse_string_as_value].
  destruct (Ascii.eqb c SPACE); [destruct leading; eexists _, _; split;
    [reflexivity | reflexivity | reflexivity | exact Hc] |].
  destruct (Ascii.eqb c TAB); [destruct leading; eexists _, _; split;
    [reflexivity | reflexivity | reflexivity | exact Hc] |].
  destruct (Ascii.eqb c LF); [eexists _, _; split; reflexivity |].
  destruct (Ascii.eqb c CR); [eexists _, _; split; reflexivity |].
  destruct (Ascii.eqb c BACKSLASH); [eexists _, _; split; reflexivity |].
  eexists _, _; split; [reflexivity | exact Hc].
Qed.

(** How the escaped text of [rest] begins. *)
Lemma escape_shape rest :
  (rest = EmptyString /\ parse_string_as_value false rest = EmptyString)
  \/ (exists c r, rest = String c r /\ 128 <= byte_of c
        /\ parse_string_as_value false rest = String c (parse_string_as_value false r))
  \/ (exists c r a tail, rest = String c r /\ byte_of c < 128
        /\ parse_string_as_value false rest = String a tail /\ byte_of a < 128).
Proof.
  destruct rest as [| c r]; [left; split; reflexivity |]. right.
  destruct (Z.ltb_spec (byte_of c) 128) as [Hlow | Hhigh].
  - right. destruct (escape_ascii_head c r false Hlow) as (a & tail & Heq & Ha).
    exists c, r, a, tail. repeat split; assumption.
  - left. exists c, r. repeat split; [exact Hhigh | now apply escape_high].
Qed.

Ltac escape_shape r c1 r1 :=
  let Hesc := fresh "Hesc" in
  let Hhigh := fresh "Hhigh" in
  let Hlow := fresh "Hlow" in
  let Ha := fresh "Ha" in
  let a := fresh "a" in
  let tail := fresh "tail" in
  destruct (escape_shape r)
    as [[-> Hesc] | [(c1 & r1 & -> & Hhigh & Hesc)
                    | (c1 & r1 & a & tail & -> & Hlow & Hesc & Ha)]];
  rewrite Hesc; clear Hesc;
  [reflexivity | |
   try (rewrite ?(is_continuation_ascii a), ?(is_continuation_ascii c1),
          ?(in_range_ascii _ _ a), ?(in_range_ascii _ _ c1) by (assumption || lia);
        rewrite ?andb_false_r; cbn [andb];
        repeat match goal with
               | |- context [if ?b then false else false] => destruct b
               | |- context [match ?t with EmptyString => _ | String _ _ => _ end] =>
                   destruct t
               end;
        reflexivity)].

Lemma escape_validate_bounded n :
  forall s leading,
    (String.length s <= n)%nat ->
    g_utf8_validate (parse_string_as_value leading s) = g_utf8_validate s.
Proof.
  induction n as [| n IH]; intros s leading Hlen.
  - destruct s; [reflexivity | cbn [String.length] in Hlen; lia].
  - destruct s as [| c rest]; [reflexivity |].
    cbn [String.length] in Hlen.
    destruct (Z.ltb_spec (byte_of c) 128) as [Hlow | Hhigh].
    + destruct (escape_ascii_valid c rest leading Hlow) as [leading' ->].
      rewrite (validate_ascii c) by exact Hlow. apply IH. lia.
    + rewrite escape_high by exact Hhigh.
      cbn [g_utf8_validate].
      destruct (byte_of c <? 128) eqn:E0; [lia |].
      destruct ((194 <=? byte_of c) && (byte_of c <=? 223)).
      { escape_shape rest c1 r1.
        rewrite IH by (cbn [String.length] in Hlen; lia). reflexivity. }
      destruct ((224 <=? byte_of c) && (byte_of c <=? 239)).
      { escape_shape rest c1 r1. escape_shape r1 c2 r2.
        rewrite IH by (cbn [String.length] in Hlen; lia). reflexivity. }
      destruct ((240 <=? byte_of c) && (byte_of c <=? 244)); [| reflexivity].
      escape_shape rest c1 r1. escape_shape r1 c2 r2. escape_shape r2 c3 r3.
      rewrite IH by (cbn [String.length] in Hlen; lia). reflexivity.
Qed.

(** Escaping turns UTF-8 into UTF-8 and anything else into something
    that is not UTF-8 either. *)
Lemma escape_validate s :
  g_utf8_validate (g_key_file_parse_string_as_value s) = g_utf8_validate s.
Proof. apply (escape_validate_bounded (String.length s)). lia. Qed.

Lemma unescape_plain c rest :
  Ascii.eqb c BACKSLASH = false ->
  g_key_file_parse_value_as_string (String c rest) =
  (String c (fst (g_key_file_parse_value_as_string rest)),
   snd (g_key_file_parse_value_as_string rest)).
Proof.
  intros Hc. cbn [g_key_file_parse_value_as_string]. rewrite Hc.
  now destruct (g_key_file_parse_value_as_string rest).
Qed.

Lemma high_not_backslash c : 128 <= byte_of c -> Ascii.eqb c BACKSLASH = false.
Proof.
  intros Hc. destruct (Ascii.eqb_spec c BACKSLASH) as [-> | _]; [| reflexivity].
  assert (byte_of BACKSLASH = 92) by reflexivity. lia.
Qed.

Ltac unescape_high c :=
  rewrite (unescape_plain c) in *
    by (apply high_not_backslash;
        first [assumption
              | apply is_continuation_high; assumption
              | eapply in_range_high; [| eassumption]; lia]);
  cbn [fst snd] in *.

Lemma unescape_validate_bounded n :
  forall raw,
    (String.length raw <= n)%nat ->
    g_utf8_validate raw = true ->
    snd (g_key_file_parse_value_as_string raw) = None ->
    g_utf8_validate (fst (g_key_file_parse_value_as_string raw)) = true.
Proof.
  induction n as [| n IH]; intros raw Hlen Hvalid Hok.
  - destruct raw; [reflexivity | cbn [String.length] in Hlen; lia].
  - destruct raw as [| c rest]; [reflexivity |].
    cbn [String.length] in Hlen.
    destruct (Ascii.eqb_spec c BACKSLASH) as [-> | Hplain].
    + rewrite validate_ascii in Hvalid by reflexivity.
      cbn [g_key_file_parse_value_as_string] in Hok |- *.
      rewrite Ascii.eqb_refl in Hok |- *.
      destruct rest as [| e rest']; [discriminate |].
      cbn [String.length] in Hlen.
      pose proof (IH rest' ltac:(lia)) as IH'.
      destruct (g_key_file_parse_value_as_string rest') as [tail error].
      cbn [fst snd] in IH'.
      destruct (Ascii.eqb_spec e LOWER_S) as [-> | _];
        [cbn [fst snd] in Hok |- *;
         rewrite validate_ascii in Hvalid |- * by reflexivity; now apply IH' |].
      destruct (Ascii.eqb_spec e LOWER_N) as [-> | _];
        [cbn [fst snd] in Hok |- *;
         rewrite validate_ascii in Hvalid |- * by reflexivity; now apply IH' |].
      destruct (Ascii.eqb_spec e LOWER_T) as [-> | _];
        [cbn [fst snd] in Hok |- *;
         rewrite validate_ascii in Hvalid |- * by reflexivity; now apply IH' |].
      destruct (Ascii.eqb_spec e LOWER_R) as [-> | _];
        [cbn [fst snd] in Hok |- *;
         rewrite validate_ascii in Hvalid |- * by reflexivity; now apply IH' |].
      destruct (Ascii.eqb_spec e BACKSLASH) as [-> | _];
        [cbn [fst snd] in Hok |- *;
         rewrite validate_ascii in Hvalid |- * by reflexivity; now apply IH' |].
      discriminate.
    + apply Ascii.eqb_neq in Hplain. rewrite unescape_plain in Hok |- * by exact Hplain.
      cbn [fst snd] in Hok |- *.
      destruct (Z.ltb_spec (byte_of c) 128) as [Hlow | Hhigh].
      * rewrite validate_ascii in Hvalid |- * by exact Hlow.
        apply IH; [lia | exact Hvalid | exact Hok].
      * cbn [g_utf8_validate] in Hvalid |- *.
        destruct (byte_of c <? 128) eqn:E0; [lia |].
        destruct ((194 <=? byte_of c) && (byte_of c <=? 223)).
        { destruct rest as [| c1 r]; [discriminate |].
          apply andb_prop in Hvalid as [Hc1 Hr].
          unescape_high c1. rewrite Hc1. cbn [andb].
          apply IH; [cbn [String.length] in Hlen; lia | exact Hr | exact Hok]. }
        destruct ((224 <=? byte_of c) && (byte_of c <=? 239)).
        { destruct rest as [| c1 [| c2 r]]; try discriminate.
          apply andb_prop in Hvalid as [Hvalid Hr].
          apply andb_prop in Hvalid as [Hc1 Hc2].
          assert (128 <= byte_of c1) as Hh1.
          { destruct (byte_of c =? 224); [eapply in_range_high; [| exact Hc1]; lia |].
            destruct (byte_of c =? 237); [eapply in_range_high; [| exact Hc1]; lia |].
            apply is_continuation_high; exact Hc1. }
          unescape_high c1. unescape_high c2. rewrite Hc1, Hc2. cbn [andb].
          apply IH; [cbn [String.length] in Hlen; lia | exact Hr | exact Hok]. }
        destruct ((240 <=? byte_of c) && (byte_of c <=? 244)); [| discriminate].
        destruct rest as [| c1 [| c2 [| c3 r]]]; try discriminate.
        apply andb_prop in Hvalid as [Hvalid Hr].
        apply andb_prop in Hvalid as [Hvalid Hc3].
        apply andb_prop in Hvalid as [Hc1 Hc2].
        assert (128 <= byte_of c1) as Hh1.
        { destruct (byte_of c =? 240); [eapply in_range_high; [| exact Hc1]; lia |].
          destruct (byte_of c =? 244); [eapply in_range_high; [| exact Hc1]; lia |].
          apply is_continuation_high; exact Hc1. }
        unescape_high c1. unescape_high c2. unescape_high c3.
        rewrite Hc1, Hc2, Hc3. cbn [andb].
        apply IH; [cbn [String.length] in Hlen; lia | exact Hr | exact Hok].
Qed.

(** A string read from the file is UTF-8. *)
Lemma string_field_utf8 key_file group_name key v :
  string_field key_file group_name key = Some v -> g_utf8_validate v = true.
Proof.
  unfold string_field. destruct (raw_value key_file group_name key) as [raw |];
    [| discriminate].
  destruct (g_utf8_validate raw) eqn:Hvalid; [| discriminate].
  pose proof (unescape_validate_bounded (String.length raw) raw
                ltac:(lia) Hvalid) as Hun.
  destruct (g_key_file_parse_value_as_string raw) as [s [e |]]; [discriminate |].
  intros [= <-]. now apply Hun.
Qed.

End Utf8Facts.

(** ** What a successful load has read *)

Section LoadedRecord.

Implicit Types (key_file : GKeyFile) (config : FsearchConfig) (fs : FileSystem).

(** The loop returns only after it has read a run of keys and met one it
    could not read. *)
Lemma load_locations_inv fuel :
  forall key_file pos config config',
    is_uint32 pos ->
    load_locations fuel key_file pos config = Some config' ->
    exists vs,
      config' = set_locations (locations config ++ vs) config
      /\ (length vs < fuel)%nat
      /\ (forall i v, vs !! i = Some v ->
            string_field key_file "Database"
              (location_key (to_uint32 (pos + Z.of_nat i))) = Some v)
      /\ string_field key_file "Database"
           (location_key (to_uint32 (pos + Z.of_nat (length vs)))) = None.
Proof.
  induction fuel as [| fuel IH]; intros key_file pos config config' Hpos Hload;
    [discriminate |].
  cbn [load_locations] in Hload. rewrite config_load_string_field in Hload.
  destruct (string_field key_file "Database" (location_key pos)) as [v |] eqn:Hhere.
  - apply IH in Hload as (vs & -> & Hfuel & Hread & Hend); [| apply to_uint32_range].
    exists (v :: vs). split; [| split; [| split]].
    + unfold g_list_append. cbn [locations set_locations].
      now rewrite <- app_assoc.
    + cbn [length]. lia.
    + intros [| i] w Hi.
      * injection Hi as <-. now rewrite Z.add_0_r, to_uint32_small.
      * rewrite <- to_uint32_succ_add. apply Hread. exact Hi.
    + cbn [length]. rewrite <- to_uint32_succ_add. exact Hend.
  - injection Hload as <-. exists []. split; [| split; [| split]].
    + now rewrite app_nil_r, set_locations_same.
    + cbn [length]. lia.
    + intros i v Hi. discriminate.
    + cbn [length]. now rewrite Z.add_0_r, to_uint32_small.
Qed.

Lemma load_config_inv fuel config fs config' :
  load_config fuel config fs = Some (true, config') ->
  exists key_file vs,
    config_file fs = FileKeyData key_file
    /\ config' = loaded_record key_file (locations config ++ vs)
    /\ (length vs < fuel)%nat
    /\ (forall i v, vs !! i = Some v ->
          string_field key_file "Database"
            (location_key (to_uint32 (1 + Z.of_nat i))) = Some v)
    /\ locations_end key_file (length vs).
Proof.
  intros Hload. destruct (config_file fs) as [| | | key_file] eqn:Hfile;
    try (rewrite load_config_unloadable in Hload;
         [discriminate | unfold g_key_file_load_from_file; now rewrite Hfile]).
  rewrite (load_config_loaded fuel config fs key_file Hfile) in Hload.
  destruct (load_locations fuel key_file 1 (loaded_record key_file (locations config)))
    as [loaded |] eqn:Hloop; [| discriminate].
  injection Hload as <-.
  apply load_locations_inv in Hloop as (vs & -> & Hfuel & Hread & Hend);
    [| unfold is_uint32, UINT32_MOD; lia].
  exists key_file, vs. repeat split; assumption.
Qed.

(** Keys the loop has found are keys of the [Database] group, all
    different. *)
Lemma asked_keys_counted key_file k :
  Z.of_nat k <= UINT32_MOD ->
  (forall n, (n < k)%nat ->
     is_Some (raw_value key_file "Database"
                (location_key (to_uint32 (1 + Z.of_nat n))))) ->
  (k <= database_size key_file)%nat.
Proof.
  intros Hk Hall.
  set (group := default (∅ : gmap string string) (key_file !! "Database")).
  set (key := fun n : nat => location_key (to_uint32 (1 + Z.of_nat n))).
  set (asked := key <$> seq 0 k).
  assert (Hnodup : NoDup asked).
  { apply NoDup_fmap_2_strong; [| apply NoDup_seq].
    intros a b Ha Hb Heq. apply elem_of_seq in Ha, Hb.
    apply to_uint32_succ_inj; [lia | lia |].
    apply location_key_inj; [apply to_uint32_range | apply to_uint32_range | exact Heq]. }
  assert (Hsub : (list_to_set asked : gset string) ⊆ dom group).
  { intros x Hx. apply elem_of_list_to_set, list_elem_of_fmap in Hx as (n & -> & Hn).
    apply elem_of_seq in Hn. apply elem_of_dom.
    unfold group. rewrite <- raw_value_database. apply Hall. lia. }
  apply subseteq_size in Hsub.
  rewrite size_list_to_set, size_dom in Hsub by exact Hnodup.
  unfold asked in Hsub. rewrite length_fmap, length_seq in Hsub.
  exact Hsub.
Qed.

Lemma string_field_raw_some key_file group_name key v :
  string_field key_file group_name key = Some v ->
  is_Some (raw_value key_file group_name key).
Proof.
  unfold string_field. destruct (raw_value key_file group_name key); [eauto | discriminate].
Qed.

Lemma uint_field_range key_file group_name key default_value :
  is_uint32 default_value -> is_uint32 (uint_field key_file group_name key default_value).
Proof.
  intros Hd. rewrite uint_field_raw.
  destruct (raw_value key_file group_name key) as [raw |]; [| exact Hd].
  destruct (g_key_file_parse_value_as_integer raw) as [v [e |]]; [exact Hd |].
  apply (to_uint32_range v).
Qed.

(** X4 : whatever the file holds, a successful [load_config] leaves the
    locations the record had in front, appends only UTF-8 strings, at most
    one per key of the [Database] group (a group of fewer than 2^32 keys),
    and sets [num_results] to a value of the 32-bit range. *)
Theorem load_config_result_well_formed
  (fuel : nat) (config config' : FsearchConfig) (fs : FileSystem) (key_file : GKeyFile) :
  config_file fs = FileKeyData key_file ->
  Z.of_nat (database_size key_file) < UINT32_MOD ->
  load_config fuel config fs = Some (true, config') ->
  config_wf config'
  /\ exists vs,
       locations config' = (locations config ++ vs)%list
       /\ Forall (fun s => g_utf8_validate s = true) vs
       /\ (length vs <= database_size key_file)%nat.
Proof.
  intros Hfile Hsize Hload.
  apply load_config_inv in Hload as (kf & vs & Hfile' & -> & _ & Hread & _).
  rewrite Hfile in Hfile'. injection Hfile' as <-.
  split.
  - unfold config_wf. cbn [num_results loaded_record]. apply uint_field_range.
    unfold is_uint32, UINT32_MOD. lia.
  - exists vs. split; [reflexivity |]. split.
    + apply Forall_forall. intros v Hv. apply list_elem_of_lookup in Hv as [i Hi].
      eapply string_field_utf8, Hread, Hi.
    + destruct (le_lt_dec (length vs) (database_size key_file)) as [Hle | Hgt];
        [exact Hle |].
      exfalso.
      assert (S (database_size key_file) <= database_size key_file)%nat; [| lia].
      apply asked_keys_counted; [lia |].
      intros n Hn. destruct (lookup_lt_is_Some_2 vs n ltac:(lia)) as [v Hv].
      eapply string_field_raw_some, Hread, Hv.
Qed.

Lemma load_config_result_well_formed_witness :
  config_wf (loaded_record file_location_gap (locations sample_config ++ ["/a"]))
  /\ exists vs,
       locations (loaded_record file_location_gap (locations sample_config ++ ["/a"]))
       = (locations sample_config ++ vs)%list
       /\ Forall (fun s => g_utf8_validate s = true) vs
       /\ (length vs <= database_size file_location_gap)%nat.
Proof.
  apply (load_config_result_well_formed 2 sample_config _
           (on_disk (FileKeyData file_location_gap)) file_location_gap).
  - reflexivity.
  - vm_compute. reflexivity.
  - vm_compute. reflexivity.
Defined.

(** X5 : [load_config] never clears the locations: loading the same file
    a second time into the record just loaded succeeds again, leaves the
    scalars as they are and appends the same locations once more. *)
Theorem load_config_twice_repeats_locations
  (fuel : nat) (config once : FsearchConfig) (fs : FileSystem) :
  load_config fuel config fs = Some (true, once) ->
  exists vs,
    locations once = (locations config ++ vs)%list
    /\ load_config fuel once fs
       = Some (true, set_locations (locations config ++ vs ++ vs) once).
Proof.
  intros Hload.
  apply load_config_inv in Hload as (key_file & vs & Hfile & -> & Hfuel & Hread & Hend).
  exists vs. split; [reflexivity |].
  rewrite (load_config_reads fuel _ fs key_file vs Hfile Hread Hend Hfuel).
  cbn [locations loaded_record]. rewrite <- app_assoc. reflexivity.
Qed.

Lemma load_config_twice_repeats_locations_witness :
  load_config 2 zeroed_config (on_disk (FileKeyData file_location_gap))
  = Some (true, loaded_record file_location_gap ["/a"])
  /\ load_config 2 (loaded_record file_location_gap ["/a"])
       (on_disk (FileKeyData file_location_gap))
     = Some (true, loaded_record file_location_gap ["/a"; "/a"]).
Proof.
  assert (Hfirst : load_config 2 zeroed_config (on_disk (FileKeyData file_location_gap))
                   = Some (true, loaded_record file_location_gap ["/a"]))
    by (vm_compute; reflexivity).
  split; [exact Hfirst |].
  destruct (load_config_twice_repeats_locations 2 zeroed_config _ _ Hfirst)
    as (vs & Hvs & Htwice).
  cbn [locations loaded_record zeroed_config app] in Hvs. subst vs.
  rewrite Htwice. reflexivity.
Defined.

End LoadedRecord.

(** ** Saving and loading again, in general *)

Section SaveThenLoad.

Implicit Types (config saved : FsearchConfig) (fs : FileSystem).

Lemma utf8_prefix_lookup l :
  forall i v, utf8_prefix l !! i = Some v ->
              l !! i = Some v /\ g_utf8_validate v = true.
Proof.
  induction l as [| s rest IH]; intros i v Hi; [discriminate |].
  cbn [utf8_prefix] in Hi. destruct (g_utf8_validate s) eqn:Hs; [| discriminate].
  destruct i as [| i].
  - injection Hi as <-. split; [reflexivity | exact Hs].
  - apply IH. exact Hi.
Qed.

Lemma utf8_prefix_stop l :
  length (utf8_prefix l) = length l
  \/ exists s, l !! length (utf8_prefix l) = Some s /\ g_utf8_validate s = false.
Proof.
  induction l as [| s rest IH]; [left; reflexivity |].
  cbn [utf8_prefix]. destruct (g_utf8_validate s) eqn:Hs.
  - destruct IH as [IH | (t & Ht & Hbad)].
    + left. cbn [length]. now rewrite IH.
    + right. exists t. split; [exact Ht | exact Hbad].
  - right. exists s. split; [reflexivity | exact Hs].
Qed.

Lemma utf8_prefix_length l : (length (utf8_prefix l) <= length l)%nat.
Proof.
  induction l as [| s rest IH]; [reflexivity |].
  cbn [utf8_prefix]. destruct (g_utf8_validate s); cbn [length]; lia.
Qed.

Lemma utf8_prefix_all l :
  Forall (fun s => g_utf8_validate s = true) l -> utf8_prefix l = l.
Proof.
  induction 1 as [| s rest Hs _ IH]; [reflexivity |].
  cbn [utf8_prefix]. now rewrite Hs, IH.
Qed.

Lemma read_back_plain l :
  Forall (fun s => starts_with_form_feed s = false) l -> read_back <$> l = l.
Proof.
  induction 1 as [| s rest Hs _ IH]; [reflexivity |].
  cbn [fmap list_fmap]. unfold read_back at 1. rewrite Hs. f_equal. exact IH.
Qed.

(** What [load_config] makes of the file written for a saved record. *)
Lemma load_written_file fuel saved config fs :
  config_wf saved ->
  Z.of_nat (length (locations saved)) < UINT32_MOD ->
  config_file fs = FileKeyData (g_key_file_parse_written (key_file_of saved)) ->
  (length (utf8_prefix (locations saved)) < fuel)%nat ->
  load_config fuel config fs =
  Some (true,
        set_locations
          (locations config ++ (read_back <$> utf8_prefix (locations saved))) saved).
Proof.
  intros Hwf Hlen Hfile Hfuel.
  rewrite (load_config_reads fuel config fs
             (g_key_file_parse_written (key_file_of saved))
             (read_back <$> utf8_prefix (locations saved))).
  - now rewrite loaded_record_written.
  - exact Hfile.
  - intros i v Hi. rewrite list_lookup_fmap in Hi.
    destruct (utf8_prefix (locations saved) !! i) as [s |] eqn:Hs; [| discriminate].
    injection Hi as <-. apply utf8_prefix_lookup in Hs as [Hs Hvalid].
    now apply written_location_read.
  - rewrite length_fmap.
    destruct (utf8_prefix_stop (locations saved)) as [-> | (s & Hs & Hbad)].
    + now apply written_locations_end.
    + pose proof (lookup_lt_Some _ _ _ Hs) as Hlt.
      unfold locations_end, string_field.
      rewrite to_uint32_small by (unfold is_uint32; lia).
      rewrite raw_value_parse_written, key_file_of_locations.
      rewrite (save_locations_written _ _ _ _ s) by (lia || exact Hs).
      cbn [fmap option_fmap option_map].
      now rewrite chug_value_validate, escape_validate, Hbad.
  - rewrite length_fmap. exact Hfuel.
Qed.

(** X6 : after a successful [save_config], [load_config] succeeds,
    restores every scalar of the saved record and appends, to the
    locations the target record already has, the saved locations up to the
    first one that is not UTF-8 (all of them when all are UTF-8), each as
    the file gives it back: unchanged, except that a location beginning
    with a form feed loses the white space it begins with. *)
Theorem save_then_load_in_general
  (saved config config' : FsearchConfig) (fs fs' : FileSystem) (fuel : nat) :
  config_wf saved ->
  Z.of_nat (length (locations saved)) < UINT32_MOD ->
  save_config saved fs = (true, config', fs') ->
  (length (locations saved) < fuel)%nat ->
  load_config fuel config fs' =
  Some (true,
        set_locations
          (locations config ++ (read_back <$> utf8_prefix (locations saved))) saved).
Proof.
  intros Hwf Hlen Hsave Hfuel.
  apply save_config_saved in Hsave as [_ Hfile].
  apply load_written_file; try assumption.
  pose proof (utf8_prefix_length (locations saved)). lia.
Qed.

Lemma save_then_load_in_general_witness :
  load_config 2 sample_config (snd (save_config latin1_config (on_disk FileAbsent)))
  = Some (true, set_locations (locations sample_config) latin1_config)
  /\ load_config 2 sample_config (snd (save_config form_feed_config (on_disk FileAbsent)))
     = Some (true, set_locations (locations sample_config ++ ["/a"]) form_feed_config).
Proof.
  split.
  - rewrite (save_then_load_in_general latin1_config sample_config latin1_config
               (on_disk FileAbsent)
               (snd (save_config latin1_config (on_disk FileAbsent))) 2).
    + reflexivity.
    + unfold config_wf, is_uint32, UINT32_MOD. cbn. lia.
    + vm_compute. reflexivity.
    + vm_compute. reflexivity.
    + cbn. lia.
  - rewrite (save_then_load_in_general form_feed_config sample_config form_feed_config
               (on_disk FileAbsent)
               (snd (save_config form_feed_config (on_disk FileAbsent))) 2).
    + reflexivity.
    + unfold config_wf, is_uint32, UINT32_MOD. cbn. lia.
    + vm_compute. reflexivity.
    + vm_compute. reflexivity.
    + cbn. lia.
Defined.

(** A string read from a file whose values are as the parser leaves them
    does not begin with a form feed: the raw value does not begin with
    white space, and no escape sequence stands for a form feed. *)
Lemma string_field_no_form_feed key_file group_name key v :
  as_parsed key_file ->
  string_field key_file group_name key = Some v ->
  starts_with_form_feed v = false.
Proof.
  intros Hparsed. unfold string_field.
  destruct (raw_value key_file group_name key) as [raw |] eqn:Hraw; [| discriminate].
  apply Hparsed in Hraw.
  destruct (g_utf8_validate raw); [| discriminate].
  destruct raw as [| c rest]; [intros [= <-]; reflexivity |].
  apply chug_value_fixed in Hraw. rewrite g_ascii_isspace_eqb in Hraw.
  cbn [g_key_file_parse_value_as_string].
  destruct (Ascii.eqb_spec c BACKSLASH) as [-> | Hplain].
  - destruct rest as [| e rest']; [discriminate |].
    destruct (g_key_file_parse_value_as_string rest') as [tail error].
    repeat (destruct (Ascii.eqb e _);
            [destruct error; [discriminate | intros [= <-]; reflexivity] |]).
    discriminate.
  - destruct (g_key_file_parse_value_as_string rest) as [tail [error |]];
      [discriminate |].
    intros [= <-]. cbn [starts_with_form_feed].
    destruct (Ascii.eqb c FORM_FEED); [| reflexivity].
    rewrite !orb_true_r in Hraw. cbn [orb] in Hraw. discriminate.
Qed.

(** X7 : a record that [load_config] has produced from a file (its values
    as the parser leaves them, none beginning with white space, and the
    [Database] group having fewer than 2^32 keys) survives being saved and
    loaded again unchanged: what was loaded is UTF-8, in range and never
    begins with a form feed, so nothing is lost a second time. *)
Theorem loaded_record_is_stable
  (fuel fuel' : nat) (config config'' loaded saved' : FsearchConfig)
  (fs fs1 fs2 : FileSystem) (key_file : GKeyFile) :
  config_file fs = FileKeyData key_file ->
  as_parsed key_file ->
  Z.of_nat (database_size key_file) < UINT32_MOD ->
  locations config = [] ->
  load_config fuel config fs = Some (true, loaded) ->
  save_config loaded fs1 = (true, saved', fs2) ->
  locations config'' = [] ->
  (length (locations loaded) < fuel')%nat ->
  load_config fuel' config'' fs2 = Some (true, loaded).
Proof.
  intros Hfile Hparsed Hsize Hempty Hload Hsave Hempty' Hfuel.
  apply save_config_saved in Hsave as [_ Hfile2].
  apply load_config_inv in Hload as (kf & vs & Hfile' & -> & _ & Hread & _).
  rewrite Hfile in Hfile'. injection Hfile' as <-.
  rewrite Hempty, app_nil_l in *. cbn [locations loaded_record] in Hfuel.
  assert (Hutf8 : Forall (fun s => g_utf8_validate s = true) vs).
  { apply Forall_forall. intros v Hv. apply list_elem_of_lookup in Hv as [i Hi].
    eapply string_field_utf8, Hread, Hi. }
  assert (Hplain : Forall (fun s => starts_with_form_feed s = false) vs).
  { apply Forall_forall. intros v Hv. apply list_elem_of_lookup in Hv as [i Hi].
    eapply string_field_no_form_feed; [exact Hparsed | apply (Hread i v Hi)]. }
  assert (Hcount : (length vs <= database_size key_file)%nat).
  { destruct (le_lt_dec (length vs) (database_size key_file)) as [Hle | Hgt];
      [exact Hle |].
    exfalso.
    assert (S (database_size key_file) <= database_size key_file)%nat; [| lia].
    apply asked_keys_counted; [lia |].
    intros n Hn. destruct (lookup_lt_is_Some_2 vs n ltac:(lia)) as [v Hv].
    eapply string_field_raw_some, Hread, Hv. }
  rewrite (load_written_file fuel' (loaded_record key_file vs) config'' fs2).
  - cbn [locations loaded_record].
    rewrite Hempty', app_nil_l, utf8_prefix_all, read_back_plain by assumption.
    reflexivity.
  - unfold config_wf. cbn [num_results loaded_record]. apply uint_field_range.
    unfold is_uint32, UINT32_MOD. lia.
  - cbn [locations loaded_record]. lia.
  - exact Hfile2.
  - cbn [locations loaded_record]. rewrite utf8_prefix_all by exact Hutf8. exact Hfuel.
Qed.

Lemma file_location_gap_as_parsed : as_parsed file_location_gap.
Proof.
  intros group_name key raw. unfold raw_value, file_location_gap.
  destruct (String.eqb_spec group_name "Database") as [-> | Hother].
  - rewrite lookup_singleton_eq.
    destruct (String.eqb_spec key "location_1") as [-> | H1].
    + rewrite lookup_insert_eq. now intros [= <-].
    + rewrite lookup_insert_ne by congruence.
      destruct (String.eqb_spec key "location_3") as [-> | H3].
      * rewrite lookup_singleton_eq. now intros [= <-].
      * rewrite lookup_singleton_ne by congruence. discriminate.
  - rewrite lookup_singleton_ne by congruence. discriminate.
Qed.

Lemma loaded_record_is_stable_witness :
  load_config 2 zeroed_config (on_disk (FileKeyData file_location_gap))
  = Some (true, loaded_record file_location_gap ["/a"])
  /\ load_config 2 zeroed_config
       (snd (save_config (loaded_record file_location_gap ["/a"]) (on_disk FileAbsent)))
     = Some (true, loaded_record file_location_gap ["/a"]).
Proof.
  assert (Hfirst : load_config 2 zeroed_config (on_disk (FileKeyData file_location_gap))
                   = Some (true, loaded_record file_location_gap ["/a"]))
    by (vm_compute; reflexivity).
  split; [exact Hfirst |].
  apply (loaded_record_is_stable 2 2 zeroed_config zeroed_config
           (loaded_record file_location_gap ["/a"])
           (loaded_record file_location_gap ["/a"])
           (on_disk (FileKeyData file_location_gap)) (on_disk FileAbsent)
           (snd (save_config (loaded_record file_location_gap ["/a"]) (on_disk FileAbsent)))
           file_location_gap).
  - reflexivity.
  - exact file_location_gap_as_parsed.
  - vm_compute. reflexivity.
  - reflexivity.
  - exact Hfirst.
  - vm_compute. reflexivity.
  - reflexivity.
  - cbn. lia.
Defined.

End SaveThenLoad.

(** ** The keys of a saved file *)

Section SavedKeys.

Implicit Types (key_file : GKeyFile) (config : FsearchConfig).

Lemma save_locations_keeps l :
  forall key_file pos key,
    is_Some (raw_value key_file "Database" key) ->
    is_Some (raw_value (save_locations key_file l pos) "Database" key).
Proof.
  induction l as [| data next IH]; intros key_file pos key Hsome;
    cbn [save_locations]; [exact Hsome |].
  apply IH. unfold g_key_file_set_string. rewrite raw_value_set_value.
  destruct (_ && _); [eauto | exact Hsome].
Qed.

Lemma save_locations_present l :
  forall key_file pos i,
    is_uint32 pos -> (i < length l)%nat ->
    is_Some (raw_value (save_locations key_file l pos) "Database"
               (location_key (to_uint32 (pos + Z.of_nat i)))).
Proof.
  induction l as [| data next IH]; intros key_file pos i Hpos Hi;
    cbn [length] in Hi; [lia |].
  cbn [save_locations]. destruct i as [| i].
  - apply save_locations_keeps. unfold g_key_file_set_string.
    rewrite raw_value_set_value, Z.add_0_r, to_uint32_small by exact Hpos.
    rewrite !String.eqb_refl. eauto.
  - rewrite <- to_uint32_succ_add. apply IH; [apply to_uint32_range | lia].
Qed.

Lemma scalar_key_file_keys config group_name key :
  is_Some (raw_value (scalar_key_file config) group_name key)
  <-> In (group_name, key) scalar_keys.
Proof.
  split.
  - unfold scalar_key_file, g_key_file_set_boolean, g_key_file_set_integer.
    rewrite !raw_value_set_value, raw_value_new. intros Hsome.
    repeat match type of Hsome with
           | is_Some (if ?b then _ else _) =>
               let E := fresh "E" in
               destruct b eqn:E;
               [apply andb_prop in E as [Hg Hk];
                apply String.eqb_eq in Hg, Hk; subst group_name key;
                cbn [In scalar_keys]; repeat (first [left; reflexivity | right]) |]
           end.
    destruct Hsome; discriminate.
  - cbn [In scalar_keys]. intros Hin.
    repeat (destruct Hin as [[= <- <-] | Hin];
            [unfold scalar_key_file, g_key_file_set_boolean, g_key_file_set_integer;
             rewrite !raw_value_set_value;
             cbn [String.eqb Ascii.eqb Bool.eqb andb]; eauto |]).
    contradiction.
Qed.

(** X8 : the file a successful [save_config] leaves holds the eleven
    scalar keys and one [location_N] key for each location of the record,
    and no other group or key, whatever was on disk before. *)
Theorem save_config_writes_exactly
  (config config' : FsearchConfig) (fs fs' : FileSystem) :
  save_config config fs = (true, config', fs') ->
  exists key_file,
    config_file fs' = FileKeyData key_file
    /\ forall group_name key,
         is_Some (raw_value key_file group_name key)
         <-> In (group_name, key) scalar_keys
             \/ (group_name = "Database"
                 /\ exists i, (i < length (locations config))%nat
                              /\ key = location_key (to_uint32 (1 + Z.of_nat i))).
Proof.
  intros Hsave. apply save_config_saved in Hsave as [_ Hfile].
  exists (g_key_file_parse_written (key_file_of config)). split; [exact Hfile |].
  intros group_name key. rewrite raw_value_parse_written, fmap_is_Some.
  rewrite key_file_of_locations.
  destruct (String.eqb_spec group_name "Database") as [-> | Hother].
  - split.
    + intros Hsome.
      apply save_locations_keys in Hsome as [Hsome | Hkey];
        [| | unfold is_uint32, UINT32_MOD; lia].
      * rewrite scalar_key_file_no_database in Hsome. destruct Hsome; discriminate.
      * right. split; [reflexivity | exact Hkey].
    + intros [Hin | [_ (i & Hi & ->)]].
      * apply (scalar_key_file_keys config) in Hin.
        rewrite scalar_key_file_no_database in Hin. destruct Hin; discriminate.
      * apply save_locations_present; [unfold is_uint32, UINT32_MOD; lia | exact Hi].
  - rewrite save_locations_other_group by exact Hother.
    rewrite scalar_key_file_keys. split; [intros Hin; left; exact Hin |].
    intros [Hin | [Heq _]]; [exact Hin | contradiction].
Qed.

Lemma save_config_writes_exactly_witness :
  exists key_file,
    config_file (snd (save_config sample_config (on_disk FileMalformed)))
    = FileKeyData key_file
    /\ is_Some (raw_value key_file "Search" "num_results")
    /\ is_Some (raw_value key_file "Database" "location_3")
    /\ ~ is_Some (raw_value key_file "Interface" "num_results").
Proof.
  destruct (save_config_writes_exactly sample_config sample_config
              (on_disk FileMalformed)
              (snd (save_config sample_config (on_disk FileMalformed))))
    as (key_file & Hfile & Hkeys); [vm_compute; reflexivity |].
  exists key_file. split; [exact Hfile |]. split; [| split].
  - apply Hkeys. left. cbn [In scalar_keys]. repeat (first [left; reflexivity | right]).
  - apply Hkeys. right. split; [reflexivity |]. exists 2%nat. split; [cbn; lia | reflexivity].
  - intros Hsome. apply Hkeys in Hsome as [Hin | [Heq _]]; [| discriminate].
    cbn [In scalar_keys] in Hin.
    repeat (destruct Hin as [Hin | Hin]; [discriminate |]). contradiction.
Defined.

End SavedKeys.

(** ** What [load_config] looks at *)

Section LoadDependsOn.

Implicit Types (key_file : GKeyFile) (config : FsearchConfig).

Lemma load_locations_ext fuel :
  forall key_file key_file' pos config,
    (forall key, raw_value key_file "Database" key = raw_value key_file' "Database" key) ->
    load_locations fuel key_file pos config = load_locations fuel key_file' pos config.
Proof.
  induction fuel as [| fuel IH]; intros key_file key_file' pos config Hsame;
    [reflexivity |].
  cbn [load_locations]. rewrite !config_load_string_field.
  unfold string_field. rewrite Hsame.
  destruct (match raw_value key_file' "Database" (location_key pos) with
            | Some raw => _ | None => _ end); [| reflexivity].
  now apply IH.
Qed.

(** X9 : [load_config] looks at nothing but the eleven scalar keys and
    the [Database] group: two files that agree on these are loaded alike,
    so further groups and keys in the file are ignored. *)
Theorem load_config_ignores_other_keys
  (fuel : nat) (config : FsearchConfig) (fs fs' : FileSystem)
  (key_file key_file' : GKeyFile) :
  config_file fs = FileKeyData key_file ->
  config_file fs' = FileKeyData key_file' ->
  (forall group_name key,
     In (group_name, key) scalar_keys ->
     raw_value key_file group_name key = raw_value key_file' group_name key) ->
  (forall key, raw_value key_file "Database" key = raw_value key_file' "Database" key) ->
  load_config fuel config fs = load_config fuel config fs'.
Proof.
  intros Hfile Hfile' Hscalars Hdatabase.
  rewrite (load_config_loaded fuel config fs key_file Hfile).
  rewrite (load_config_loaded fuel config fs' key_file' Hfile').
  assert (Hrecord : loaded_record key_file (locations config)
                    = loaded_record key_file' (locations config)).
  { unfold loaded_record. rewrite !bool_field_raw, !uint_field_raw.
    rewrite !Hscalars
      by (cbn [In scalar_keys]; repeat (first [left; reflexivity | right])).
    reflexivity. }
  rewrite Hrecord, (load_locations_ext fuel key_file key_file' _ _ Hdatabase).
  reflexivity.
Qed.

Lemma load_config_ignores_other_keys_witness :
  load_config 2 zeroed_config
    (on_disk (FileKeyData (g_key_file_set_value file_location_gap "Window" "width" "800")))
  = load_config 2 zeroed_config (on_disk (FileKeyData file_location_gap)).
Proof.
  apply (load_config_ignores_other_keys 2 zeroed_config _ _
           (g_key_file_set_value file_location_gap "Window" "width" "800")
           file_location_gap).
  - reflexivity.
  - reflexivity.
  - intros group_name key Hin. rewrite raw_value_set_value.
    cbn [In scalar_keys] in Hin.
    repeat (destruct Hin as [[= <- <-] | Hin]; [reflexivity |]). contradiction.
  - intros key. rewrite raw_value_set_value. reflexivity.
Defined.

End LoadDependsOn.

(** ** [num_results] beyond the range of an [int] *)

Section LargeNumbers.

Lemma strtol_decimal z :
  0 <= z < 10000000000 -> strtol (printf_d z) = (z, "", false).
Proof.
  intros Hz. unfold strtol, printf_d.
  destruct (Z.ltb_spec z 0) as [Hneg | _]; [lia |].
  destruct (utoa_head 10 z "") as (d & rest & Hd & Hhead); [lia | lia |].
  pose proof (read_digits_utoa 10 z "" false) as Hread.
  rewrite Hhead in Hread |- *. rewrite skip_space_digit by exact Hd.
  cbv iota beta.
  rewrite (digit_char_not_byte d MINUS), (digit_char_not_byte d PLUS)
    by (try exact Hd; vm_compute; reflexivity).
  cbv iota beta.
  rewrite Hread by (change (10 ^ Z.of_nat 10) with 10000000000; lia).
  cbn [read_digits]. cbv iota beta. unfold LONG_MIN, LONG_MAX.
  destruct (Z.ltb_spec z (-9223372036854775808)); [lia |].
  destruct (Z.ltb_spec 9223372036854775807 z); [lia |].
  reflexivity.
Qed.

Lemma parse_integer_above_int_max z :
  INT_MAX < z < 10000000000 ->
  g_key_file_parse_value_as_integer (printf_d z)
  = (0, Some G_KEY_FILE_ERROR_INVALID_VALUE).
Proof.
  intros Hz. unfold INT_MAX in Hz. unfold g_key_file_parse_value_as_integer.
  rewrite strtol_decimal, printf_d_not_empty by lia. cbn [orb].
  pose proof (to_gint_range z) as Hrange. unfold is_gint, INT_MAX in Hrange.
  destruct (Z.eqb_spec (to_gint z) z) as [Heq | _]; [lia | reflexivity].
Qed.

(** X10 : [num_results] written in the file as a plain decimal number
    above 2147483647 (4294967295, say) is out of range for
    [g_key_file_get_integer]: [load_config] succeeds and falls back to
    10000.  The values from 2^31 on, which [save_config] writes as negative
    numbers, cannot be entered in their unsigned form. *)
Theorem large_num_results_falls_back
  (fuel : nat) (config : FsearchConfig) (fs : FileSystem) (key_file : GKeyFile) (z : Z) :
  config_file fs = FileKeyData key_file ->
  INT_MAX < z < 10000000000 ->
  raw_value key_file "Search" "num_results" = Some (printf_d z) ->
  Z.of_nat (database_size key_file) < UINT32_MOD ->
  (database_size key_file < fuel)%nat ->
  exists config',
    load_config fuel config fs = Some (true, config')
    /\ num_results config' = 10000.
Proof.
  intros Hfile Hz Hraw Hsize Hfuel.
  destruct (load_config_returns fuel config fs key_file Hfile Hsize Hfuel) as [l ->].
  eexists. split; [reflexivity |]. cbn [num_results loaded_record].
  now rewrite uint_field_raw, Hraw, parse_integer_above_int_max.
Qed.

Lemma large_num_results_falls_back_witness :
  printf_d 4294967295 = "4294967295"
  /\ exists config',
       load_config 1 zeroed_config
         (on_disk (FileKeyData {[ "Search" := {[ "num_results" := "4294967295" ]} ]}))
       = Some (true, config')
       /\ num_results config' = 10000.
Proof.
  split; [reflexivity |].
  apply (large_num_results_falls_back 1 zeroed_config _
           {[ "Search" := {[ "num_results" := "4294967295" ]} ]} 4294967295).
  - reflexivity.
  - unfold INT_MAX. lia.
  - vm_compute. reflexivity.
  - vm_compute. reflexivity.
  - vm_compute. lia.
Defined.

End LargeNumbers.

(** ** The directory has to be there before saving *)

Section Directory.

(** X11 : [save_config] does not create the configuration directory:
    without it the save fails and nothing changes on disk.  Once
    [make_config_dir] has succeeded (which leaves the file as it was and
    succeeds again when repeated), a save to a writable place succeeds and
    leaves a file that [g_key_file_load_from_file] accepts. *)
Theorem save_config_needs_directory :
  (forall config fs,
      config_dir_exists fs = false ->
      save_config config fs = (false, config, fs))
  /\ (forall fs fs1,
        make_config_dir fs = (true, fs1) ->
        config_file fs1 = config_file fs /\ make_config_dir fs1 = (true, fs1))
  /\ (forall config fs fs1,
        make_config_dir fs = (true, fs1) ->
        may_write_file fs = true ->
        exists fs2,
          save_config config fs1 = (true, config, fs2)
          /\ fst (g_key_file_load_from_file g_key_file_new fs2) = true).
Proof.
  split; [| split].
  - intros config fs Hdir. rewrite save_config_unfold.
    unfold g_key_file_save_to_file. rewrite Hdir. reflexivity.
  - intros fs fs1. unfold make_config_dir, g_mkdir_with_parents.
    destruct (config_dir_exists fs) eqn:Hdir.
    + intros [= <-]. rewrite Hdir. split; reflexivity.
    + destruct (may_create_dir fs); [| discriminate].
      intros [= <-]. split; reflexivity.
  - intros config fs fs1 Hmake Hwrite.
    assert (Hfs1 : config_dir_exists fs1 = true /\ may_write_file fs1 = true).
    { revert Hmake. unfold make_config_dir, g_mkdir_with_parents.
      destruct (config_dir_exists fs) eqn:Hdir.
      - intros [= <-]. split; assumption.
      - destruct (may_create_dir fs); [| discriminate].
        intros [= <-]. split; [reflexivity | exact Hwrite]. }
    destruct Hfs1 as [Hdir1 Hwrite1].
    eexists. split.
    + rewrite save_config_unfold. unfold g_key_file_save_to_file.
      rewrite Hdir1, Hwrite1. reflexivity.
    + reflexivity.
Qed.

Lemma save_config_needs_directory_witness :
  save_config sample_config first_run = (false, sample_config, first_run)
  /\ fst (fst (save_config sample_config (snd (make_config_dir first_run)))) = true.
Proof.
  split.
  - apply (proj1 save_config_needs_directory sample_config first_run). reflexivity.
  - destruct (proj2 (proj2 save_config_needs_directory) sample_config first_run
                (snd (make_config_dir first_run))) as (fs2 & Hsave & _);
      [reflexivity | reflexivity |].
    rewrite Hsave. reflexivity.
Defined.

End Directory.

(** ** Location keys over the whole range of the counter *)

Section LocationKeyRange.

(** X12 : the counter is a [uint32_t] printed with "%d": up to 2147483647
    the key carries the plain decimal index, from 2147483648 on the
    negative number 2^32 less; the 100-byte buffer never cuts the key, and
    different counter values always give different keys. *)
Theorem location_key_over_counter_range (pos : Z) :
  is_uint32 pos ->
  (pos <= INT_MAX -> location_key pos = numbered_key pos)
  /\ (INT_MAX < pos -> location_key pos = numbered_key (pos - UINT32_MOD))
  /\ (String.length (location_key pos) <= 20)%nat
  /\ (forall pos', is_uint32 pos' -> location_key pos = location_key pos' -> pos = pos').
Proof.
  intros Hpos. unfold is_uint32, UINT32_MOD in Hpos.
  split; [| split; [| split]].
  - intros Hle. apply location_key_decimal. lia.
  - intros Hgt. rewrite location_key_numbered. f_equal.
    unfold to_gint, INT_MAX, UINT32_MOD in *. rewrite Z.mod_small by lia.
    destruct (Z.leb_spec pos 2147483647); [lia | reflexivity].
  - rewrite location_key_numbered. unfold numbered_key.
    rewrite string_length_app. pose proof (printf_d_length (to_gint pos)).
    cbn [String.length]. lia.
  - intros pos' Hpos' Heq. now apply location_key_inj.
Qed.

Lemma location_key_over_counter_range_witness :
  location_key 2147483647 = "location_2147483647"
  /\ location_key 4294967295 = "location_-1".
Proof.
  destruct (location_key_over_counter_range 2147483647) as (Hlow & _);
    [unfold is_uint32, UINT32_MOD; lia |].
  destruct (location_key_over_counter_range 4294967295) as (_ & Hhigh & _);
    [unfold is_uint32, UINT32_MOD; lia |].
  rewrite Hlow by (unfold INT_MAX; lia). rewrite Hhigh by (unfold INT_MAX; lia).
  split; reflexivity.
Defined.

End LocationKeyRange.

(** ** A location that cannot be read ends the list *)

Section UnreadableLocation.

Lemma get_string_error_field key_file group_name key e :
  snd (g_key_file_get_string key_file group_name key) = Some e ->
  string_field key_file group_name key = None.
Proof.
  unfold g_key_file_get_string, string_field, g_key_file_get_value, raw_value.
  destruct (key_file !! group_name) as [group |]; [| reflexivity].
  destruct (group !! key) as [raw |]; [| reflexivity].
  destruct (g_utf8_validate raw); [| reflexivity].
  destruct (g_key_file_parse_value_as_string raw) as [s [e' |]];
    [reflexivity | discriminate].
Qed.

(** X13 : the loop of [load_config] stops at the first key for which
    [g_key_file_get_string] sets an error of any kind: a location that is
    not UTF-8 or holds a bad escape sequence (a backslash before a letter
    other than s, n, t, r) ends the list exactly like a missing key, and
    the locations after it are not loaded. *)
Theorem load_stops_at_unreadable_location
  (fuel : nat) (config : FsearchConfig) (fs : FileSystem) (key_file : GKeyFile)
  (vs : list string) (e : GKeyFileError) :
  config_file fs = FileKeyData key_file ->
  Z.of_nat (length vs) < INT_MAX ->
  (forall i v, vs !! i = Some v ->
     g_key_file_get_string key_file "Database" (numbered_key (Z.of_nat i + 1))
     = (Some v, None)) ->
  snd (g_key_file_get_string key_file "Database"
         (numbered_key (Z.of_nat (length vs) + 1))) = Some e ->
  (length vs < fuel)%nat ->
  load_config fuel config fs =
  Some (true, loaded_record key_file (locations config ++ vs)).
Proof.
  intros Hfile Hlen Hread Hbad Hfuel.
  assert (Hkey : forall i, 0 <= i < INT_MAX ->
            location_key (to_uint32 (1 + i)) = numbered_key (i + 1)).
  { intros i Hi. unfold INT_MAX in Hi.
    rewrite to_uint32_small by (unfold is_uint32, UINT32_MOD; lia).
    rewrite location_key_decimal by (unfold INT_MAX; lia). f_equal. lia. }
  apply load_config_reads; try assumption.
  - intros i v Hi. pose proof (lookup_lt_Some _ _ _ Hi) as Hlt.
    rewrite Hkey by lia. apply get_string_field, Hread, Hi.
  - unfold locations_end. rewrite Hkey by lia.
    eapply get_string_error_field, Hbad.
Qed.

Lemma load_stops_at_unreadable_location_witness :
  load_config 2 zeroed_config
    (on_disk (FileKeyData
       {[ "Database" := <["location_1" := "/a"]>
                          (<["location_2" := "C:\dir"]> {[ "location_3" := "/c" ]}) ]}))
  = Some (true,
          loaded_record
            {[ "Database" := <["location_1" := "/a"]>
                               (<["location_2" := "C:\dir"]> {[ "location_3" := "/c" ]}) ]}
            ["/a"]).
Proof.
  apply (load_stops_at_unreadable_location 2 zeroed_config _ _ ["/a"]
           G_KEY_FILE_ERROR_INVALID_VALUE).
  - reflexivity.
  - vm_compute. reflexivity.
  - intros [| [| i]] v Hi; try discriminate. injection Hi as <-.
    vm_compute. reflexivity.
  - vm_compute. reflexivity.
  - cbn. lia.
Defined.

End UnreadableLocation.
